(** * Network and dual whitelists (package whitelist)

    A shallow embedding of whitelist_net.go (BasicNet, NetStub and the JSON
    codec of BasicNet) and of whitelist_dual.go (BasicDual and its two launch
    policies), with the properties of these functions proved on the
    embedding.

    Conventions.
    - A Go [string] and a Go [[]byte] are both byte sequences: [list ascii].
    - A Go run-time panic (index or slice bounds out of range, nil pointer
      dereference) is the outcome [Panic]; a call that returns is [Ret v].
    - A Go [error] is [option bytes]: [None] is the nil error, [Some m] an
      error whose message is [m].
    - A [*net.IPNet] is [option IPNet]: [None] is the nil pointer.
    - The sync.RWMutex of BasicNet is not modelled: every method runs under the
      lock from its first read of the entry sequence to its return, so one
      call is one atomic state transformer. *)

From Stdlib Require Import Ascii String List Bool Arith NArith ZArith Lia.
Import ListNotations.

Set Implicit Arguments.

Open Scope list_scope.

(** ** Byte sequences *)

Definition bytes := list ascii.

(** [bs "abc"] is the byte sequence of a literal. *)
Definition bs (s : string) : bytes := list_ascii_of_string s.

(** The double quote character, byte 34. *)
Definition dquote : ascii := ascii_of_nat 34.

Definition bytes_eqb (a b : bytes) : bool :=
  if list_eq_dec ascii_dec a b then true else false.

(** ** Outcomes of a call *)

Inductive result (A : Type) : Type :=
| Ret (a : A)
| Panic.

Arguments Ret {A} a.
Arguments Panic {A}.

Definition bind {A B : Type} (r : result A) (k : A -> result B) : result B :=
  match r with
  | Ret a => k a
  | Panic => Panic
  end.

Notation "x <- c ;; k" := (bind c (fun x => k))
  (at level 61, c at next level, right associativity).

Definition error := option bytes.

(** ** Slices *)

(** [s[i]] with Go's bounds check. *)
Definition index_at {A : Type} (s : list A) (i : Z) : result A :=
  if (i <? 0)%Z then Panic
  else match nth_error s (Z.to_nat i) with
       | Some a => Ret a
       | None => Panic
       end.

(** [s[lo:hi]] with Go's bounds check (the capacity of the slices this code
    cuts equals their length). *)
Definition slice {A : Type} (s : list A) (lo hi : Z) : result (list A) :=
  if ((0 <=? lo) && (lo <=? hi) && (hi <=? Z.of_nat (length s)))%Z
  then Ret (firstn (Z.to_nat (hi - lo)) (skipn (Z.to_nat lo) s))
  else Panic.

(** [s[i] = x] for an index in range; used by the deserialisation loop, whose
    index stays below the length of the slice it has just made. *)
Fixpoint store {A : Type} (s : list A) (i : nat) (x : A) : list A :=
  match s, i with
  | [], _ => []
  | _ :: r, O => x :: r
  | a :: r, S j => a :: store r j x
  end.

Definition len {A : Type} (s : list A) : Z := Z.of_nat (length s).

(** ** The functions of package strings that the code calls *)

(** The white space among the ASCII bytes (the table asciiSpace of package
    strings): tab, line feed, vertical tab, form feed, carriage return and
    space. *)
Definition isSpace (c : ascii) : bool :=
  let n := nat_of_ascii c in
  ((9 <=? n) && (n <=? 13)) || (n =? 32).

(** The code points for which unicode.IsSpace holds: the six of ASCII,
    U+0085 and U+00A0 in Latin-1, and beyond Latin-1 those with the property
    White_Space: U+1680, U+2000 to U+200A, U+2028, U+2029, U+202F, U+205F and
    U+3000. *)
Definition whiteSpace : list N :=
  [0x09; 0x0A; 0x0B; 0x0C; 0x0D; 0x20; 0x85; 0xA0; 0x1680;
   0x2000; 0x2001; 0x2002; 0x2003; 0x2004; 0x2005; 0x2006; 0x2007; 0x2008;
   0x2009; 0x200A; 0x2028; 0x2029; 0x202F; 0x205F; 0x3000]%N.

Definition byteOf (n : N) : ascii := ascii_of_N n.

(** The UTF-8 encoding of a code point below U+10000: one, two or three
    bytes. *)
Definition utf8 (r : N) : bytes :=
  if (r <? 0x80)%N then [byteOf r]
  else if (r <? 0x800)%N then
    [byteOf (0xC0 + r / 64); byteOf (0x80 + r mod 64)]
  else
    [byteOf (0xE0 + r / 4096); byteOf (0x80 + (r / 64) mod 64);
     byteOf (0x80 + r mod 64)].

(** The byte sequences that decode to a white-space rune. *)
Definition spaceEncodings : list bytes :=
  Eval vm_compute in map utf8 whiteSpace.

(** [s] without the prefix [p], when it starts with [p]. *)
Fixpoint cutPrefix (p s : bytes) : option bytes :=
  match p, s with
  | [], _ => Some s
  | _ :: _, [] => None
  | a :: p', b :: s' => if Ascii.eqb a b then cutPrefix p' s' else None
  end.

(** [s] without the first of [encs] it starts with. *)
Fixpoint stripOne (encs : list bytes) (s : bytes) : option bytes :=
  match encs with
  | [] => None
  | e :: rest =>
      match cutPrefix e s with
      | Some r => Some r
      | None => stripOne rest s
      end
  end.

(** Strip as long as [s] starts with one of [encs]; every strip removes a
    byte at least, so [length s] rounds are enough. *)
Fixpoint stripAll (fuel : nat) (encs : list bytes) (s : bytes) : bytes :=
  match fuel with
  | O => s
  | S f =>
      match stripOne encs s with
      | Some r => stripAll f encs r
      | None => s
      end
  end.

(** strings.TrimLeftFunc(s, unicode.IsSpace): runes are decoded from the
    front while they are white space.  utf8.DecodeRuneInString yields a
    white-space rune exactly when the string starts with the encoding of
    one: a byte sequence that is not a well-formed shortest encoding decodes
    to U+FFFD with width 1, which is no white space. *)
Definition TrimLeft (s : bytes) : bytes :=
  stripAll (length s) spaceEncodings s.

(** strings.TrimRightFunc(s, unicode.IsSpace): runes are decoded from the
    back while they are white space.  utf8.DecodeLastRuneInString steps back
    over continuation bytes to the nearest start byte and decodes from there,
    so it yields a white-space rune exactly when the string ends with the
    encoding of one; the string is stripped from the back with the reversed
    encodings. *)
Definition TrimRight (s : bytes) : bytes :=
  rev (stripAll (length s) (map (@rev ascii) spaceEncodings) (rev s)).

(** strings.TrimSpace: all leading and trailing white space, as defined by
    Unicode, is removed.  (Its two loops over ASCII bytes are a fast path of
    the two trimmings by unicode.IsSpace, to which it falls back at the first
    byte above 127.) *)
Definition TrimSpace (s : bytes) : bytes := TrimRight (TrimLeft s).

(** An ASCII byte that is not white space; no encoding of a white-space rune
    starts or ends with one. *)
Definition plainByte (c : ascii) : bool :=
  (nat_of_ascii c <? 128) && negb (isSpace c).

(** strings.Split with a one-byte separator: the code only splits at a
    comma.  The result always has one more element than [s] has separators,
    so splitting the empty string gives one empty token. *)
Fixpoint Split (s : bytes) (sep : ascii) : list bytes :=
  match s with
  | [] => [[]]
  | c :: r =>
      if Ascii.eqb c sep then [] :: Split r sep
      else match Split r sep with
           | [] => [[c]]
           | t :: ts => (c :: t) :: ts
           end
  end.

(** strings.Join. *)
Fixpoint Join (ss : list bytes) (sep : bytes) : bytes :=
  match ss with
  | [] => []
  | [s] => s
  | s :: rest => s ++ sep ++ Join rest sep
  end.

(** ** The standard library behind the code

    net.ParseCIDR, the methods of net.IPNet and json.Unmarshal belong to the Go
    standard library, not to this package.  The embedding takes them as an
    interface; module [IPv4] below implements it for dotted IPv4 networks and
    escape-free JSON string arrays, so that every definition can be run. *)

(** A net.IP is a byte slice. *)
Definition IP := list N.

Class GoStd : Type := {
  (** the struct net.IPNet *)
  IPNet : Type;
  (** the network returned by net.ParseCIDR, [None] when it returns an error *)
  net_ParseCIDR : bytes -> option IPNet;
  (** the method String of a non-nil net.IPNet pointer *)
  IPNet_String : IPNet -> bytes;
  (** the method Contains of a non-nil net.IPNet pointer *)
  IPNet_Contains : IPNet -> IP -> bool;
  (** json.Unmarshal(in, &nets) for [nets []string]: the message of the error,
      or the decoded strings *)
  json_Unmarshal : bytes -> bytes + list bytes
}.

(** Modelled from the spec: validIP lives in whitelist.go, which is not among
    the sources.  The spec has it reject nil, zero-length and malformed byte
    representations, and a 2-byte value is its example of a malformed one; a
    net.IP is well formed when it has the 4 bytes of an IPv4 address or the 16
    bytes of an IPv6 address. *)
Definition validIP (ip : IP) : bool :=
  (length ip =? 4) || (length ip =? 16).

(** Modelled from the spec: the constants JsonFormatCompatibility and
    JsonFormatNew are declared in whitelist.go, which is not among the
    sources.  The spec names the two modes Compatibility and New; the code
    only compares [jsonFormat] with them, so only their being different
    matters. *)
Definition JsonFormatCompatibility : Z := 0.
Definition JsonFormatNew : Z := 1.

Section Whitelist.

Context {std : GoStd}.

(** ** BasicNet *)

(** [whitelist] is a [[]*net.IPNet]: an entry may be the nil pointer. *)
Record BasicNet : Type := {
  jsonFormat : Z;
  whitelist : list (option IPNet)
}.

Definition set_whitelist (wl : BasicNet) (l : list (option IPNet)) : BasicNet :=
  {| jsonFormat := jsonFormat wl; whitelist := l |}.

(** [wl.whitelist[i].Contains(ip)]: Contains reads the fields of its
    receiver, so a nil entry panics. *)
Definition entry_Contains (e : option IPNet) (ip : IP) : result bool :=
  match e with
  | Some n => Ret (IPNet_Contains n ip)
  | None => Panic
  end.

(** [wl.whitelist[i].String()]: String tests its receiver and prints a nil
    pointer as <nil>. *)
Definition entry_String (e : option IPNet) : bytes :=
  match e with
  | Some n => IPNet_String n
  | None => bs "<nil>"
  end.

(** The loop of Permitted. *)
Fixpoint scan (l : list (option IPNet)) (ip : IP) : result bool :=
  match l with
  | [] => Ret false
  | e :: rest =>
      c <- entry_Contains e ip ;;
      if c then Ret true else scan rest ip
  end.

Definition Permitted (wl : BasicNet) (ip : IP) : result bool :=
  if negb (validIP ip) then Ret false
  else scan (whitelist wl) ip.

Definition Add (wl : BasicNet) (n : option IPNet) : BasicNet :=
  match n with
  | None => wl
  | Some _ => set_whitelist wl (whitelist wl ++ [n])
  end.

(** The loop of Remove: the index of the first entry that prints as [s], or
    -1. *)
Fixpoint findIndex (l : list (option IPNet)) (s : bytes) (i : Z) : Z :=
  match l with
  | [] => (-1)%Z
  | e :: rest =>
      if bytes_eqb (entry_String e) s then i
      else findIndex rest s (i + 1)%Z
  end.

Definition Remove (wl : BasicNet) (n : option IPNet) : result BasicNet :=
  match n with
  | None => Ret wl
  | Some _ =>
      let index := findIndex (whitelist wl) (entry_String n) 0%Z in
      if (index =? -1)%Z then Ret wl
      else
        front <- slice (whitelist wl) 0%Z index ;;
        back <- slice (whitelist wl) (index + 1)%Z (len (whitelist wl)) ;;
        Ret (set_whitelist wl (front ++ back))
  end.

Definition NewBasicNet2 (format : Z) : BasicNet :=
  {| jsonFormat := format; whitelist := [] |}.

Definition NewBasicNet : BasicNet := NewBasicNet2 JsonFormatCompatibility.

(** ** The JSON codec of BasicNet *)

Definition MarshalJSON (wl : BasicNet) : bytes * error :=
  let ss := map entry_String (whitelist wl) in
  if (jsonFormat wl =? JsonFormatCompatibility)%Z then
    ([dquote] ++ Join ss (bs ",") ++ [dquote], None)
  else if (jsonFormat wl =? JsonFormatNew)%Z then
    if (0 <? len ss)%Z then
      (bs "[" ++ [dquote] ++ Join ss ([dquote] ++ bs "," ++ [dquote])
         ++ [dquote] ++ bs "]", None)
    else (bs "[]", None)
  else ([], Some (bs "whitelist.Basic: unsupported JSON format")).

(** The state of the loop of UnmarshalJSON: the slice being filled and the
    count of skipped tokens; [inr addr] is the early return at the token
    [addr] that net.ParseCIDR rejects. *)
Fixpoint fill (nets : list bytes) (i : nat) (w : list (option IPNet))
    (skipped : Z) : list (option IPNet) * Z + bytes :=
  match nets with
  | [] => inl (w, skipped)
  | s :: rest =>
      let addr := TrimSpace s in
      if bytes_eqb addr [] then fill rest (S i) w (skipped + 1)%Z
      else match net_ParseCIDR addr with
           | Some n => fill rest (S i) (store w i (Some n)) skipped
           | None => inr addr
           end
  end.

(** From the lock to the return: the part of UnmarshalJSON that both formats
    share. *)
Definition populate (wl : BasicNet) (nets : list bytes)
    : result (BasicNet * error) :=
  match fill nets 0 (repeat None (length nets)) 0%Z with
  | inr addr =>
      Ret (set_whitelist wl [],
           Some (bs "whitelist.BasicNet: invalid IP network " ++ addr))
  | inl (w, skipped) =>
      w' <- slice w 0%Z (len w - skipped)%Z ;;
      Ret (set_whitelist wl w', None)
  end.

Definition UnmarshalJSON (wl : BasicNet) (input : bytes)
    : result (BasicNet * error) :=
  first <- index_at input 0%Z ;;
  last <- index_at input (len input - 1)%Z ;;
  let newFormat :=
    Ascii.eqb first "["%char && Ascii.eqb last "]"%char in
  if negb newFormat
     && (negb (Ascii.eqb first dquote) || negb (Ascii.eqb last dquote))
  then Ret (wl, Some (bs "whitelist.BasicNet: invalid whitelist"))
  else if negb newFormat then
    inner <- slice input 1%Z (len input - 1)%Z ;;
    populate wl (Split (TrimSpace inner) ","%char)
  else
    match json_Unmarshal input with
    | inl msg => Ret (wl, Some (bs "whitelist.BasicNet: " ++ msg))
    | inr nets => populate wl nets
    end.

(** ** NetStub *)

(** NetStub has no fields; its methods only log. *)
Inductive NetStub : Type := mkNetStub.

Definition NetStub_Permitted (wl : NetStub) (ip : IP) : result bool := Ret true.

End Whitelist.

(** ** An implementation of the standard-library interface

    IPv4 networks in CIDR form and JSON arrays of escape-free string
    literals: the fragment of package net and of encoding/json that the
    package's own tests exercise.  Texts outside the fragment (IPv6
    addresses, JSON escapes) are rejected here although Go accepts them; the
    theorems of the development hold for every [GoStd], and this module
    only supplies runnable instances. *)

Module IPv4.

(** A network: the four bytes of its (masked) address and the number of
    leading ones of its mask. *)
Record Net : Type := mkNet { b0 : N; b1 : N; b2 : N; b3 : N; ones : N }.

Definition isDigit (c : ascii) : bool :=
  let n := nat_of_ascii c in (48 <=? n) && (n <=? 57).

Definition digitVal (c : ascii) : N := N.of_nat (nat_of_ascii c - 48).

Definition digitChar (d : N) : ascii := ascii_of_nat (48 + N.to_nat d).

(** The value of a digit string, most significant digit first. *)
Fixpoint decimal (s : bytes) (acc : N) : N :=
  match s with
  | [] => acc
  | c :: r => decimal r (acc * 10 + digitVal c)%N
  end.

Fixpoint uitoa_loop (fuel : nat) (n : N) (acc : bytes) : bytes :=
  match fuel with
  | O => acc
  | S f =>
      let acc' := digitChar (n mod 10)%N :: acc in
      if (n / 10 =? 0)%N then acc' else uitoa_loop f (n / 10)%N acc'
  end.

(** Decimal text of an unsigned number (uitoa of package net). *)
Definition uitoa (n : N) : bytes := uitoa_loop (S (N.size_nat n)) n [].

(** One field of a dotted address: one to three digits, no leading zero,
    at most 255. *)
Definition parseOctet (f : bytes) : option N :=
  match f with
  | [] => None
  | c :: r =>
      if negb (forallb isDigit f) then None
      else if Ascii.eqb c "0"%char && negb (bytes_eqb r []) then None
      else if (3 <? length f) then None
      else let v := decimal f 0%N in
           if (v <=? 255)%N then Some v else None
  end.

(** The prefix length after the slash: digits only, at most 32. *)
Definition parsePrefix (f : bytes) : option N :=
  match f with
  | [] => None
  | _ :: _ =>
      if negb (forallb isDigit f) then None
      else if (8 <? length f) then None
      else let v := decimal f 0%N in
           if (v <=? 32)%N then Some v else None
  end.

(** [s] cut at the first [sep]. *)
Fixpoint cut (s : bytes) (sep : ascii) : option (bytes * bytes) :=
  match s with
  | [] => None
  | c :: r =>
      if Ascii.eqb c sep then Some ([], r)
      else match cut r sep with
           | Some (a, b) => Some (c :: a, b)
           | None => None
           end
  end.

(** Byte [i] of net.CIDRMask(ones, 32). *)
Definition maskByte (ones : N) (i : N) : N :=
  let n := (ones - 8 * i)%N in
  if (8 <=? n)%N then 255%N
  else (255 - N.shiftr 255 n)%N.

Definition ParseCIDR (s : bytes) : option Net :=
  match cut s "/"%char with
  | None => None
  | Some (addr, mask) =>
      match map parseOctet (Split addr "."%char), parsePrefix mask with
      | [Some a0; Some a1; Some a2; Some a3], Some n =>
          Some (mkNet (N.land a0 (maskByte n 0)) (N.land a1 (maskByte n 1))
                      (N.land a2 (maskByte n 2)) (N.land a3 (maskByte n 3)) n)
      | _, _ => None
      end
  end.

Definition String (n : Net) : bytes :=
  uitoa (b0 n) ++ bs "." ++ uitoa (b1 n) ++ bs "." ++ uitoa (b2 n)
    ++ bs "." ++ uitoa (b3 n) ++ bs "/" ++ uitoa (ones n).

(** net.IP.To4: a 4-byte address, or the last four bytes of a 16-byte
    IPv4-mapped address; [None] is Go's nil. *)
Definition To4 (ip : IP) : option IP :=
  match ip with
  | [_; _; _; _] => Some ip
  | [0; 0; 0; 0; 0; 0; 0; 0; 0; 0; 255; 255; x0; x1; x2; x3]%N =>
      Some [x0; x1; x2; x3]
  | _ => None
  end.

(** Contains of an IPv4 network: the address is brought to 4 bytes when it
    can be, and compared with the network number under the mask. *)
Definition Contains (n : Net) (ip : IP) : bool :=
  let ip := match To4 ip with Some x => x | None => ip end in
  match ip with
  | [x0; x1; x2; x3] =>
      let m := maskByte (ones n) in
      (N.land (b0 n) (m 0) =? N.land x0 (m 0))%N
      && (N.land (b1 n) (m 1) =? N.land x1 (m 1))%N
      && (N.land (b2 n) (m 2) =? N.land x2 (m 2))%N
      && (N.land (b3 n) (m 3) =? N.land x3 (m 3))%N
  | _ => false
  end.

(** *** JSON arrays of strings *)

Inductive jstate : Type :=
| JStart            (* before the opening bracket *)
| JFirst            (* after the opening bracket *)
| JNext             (* after a comma *)
| JStr (cur : bytes) (* inside a string literal, read so far, reversed *)
| JAfter            (* after a string literal *)
| JEnd              (* after the closing bracket *)
| JErr.

(** The white space of JSON. *)
Definition isJsonSpace (c : ascii) : bool :=
  let n := nat_of_ascii c in
  (n =? 32) || (n =? 9) || (n =? 10) || (n =? 13).

(** A byte that stands for itself inside a string literal of the fragment. *)
Definition isPlain (c : ascii) : bool :=
  let n := nat_of_ascii c in
  (32 <=? n) && (n <=? 126) && negb (n =? 34) && negb (n =? 92).

Definition jstep (st : jstate * list bytes) (c : ascii) : jstate * list bytes :=
  let (q, acc) := st in
  match q with
  | JStart =>
      if isJsonSpace c then (JStart, acc)
      else if Ascii.eqb c "["%char then (JFirst, acc) else (JErr, acc)
  | JFirst =>
      if isJsonSpace c then (JFirst, acc)
      else if Ascii.eqb c dquote then (JStr [], acc)
      else if Ascii.eqb c "]"%char then (JEnd, acc) else (JErr, acc)
  | JNext =>
      if isJsonSpace c then (JNext, acc)
      else if Ascii.eqb c dquote then (JStr [], acc) else (JErr, acc)
  | JStr cur =>
      if Ascii.eqb c dquote then (JAfter, rev cur :: acc)
      else if isPlain c then (JStr (c :: cur), acc) else (JErr, acc)
  | JAfter =>
      if isJsonSpace c then (JAfter, acc)
      else if Ascii.eqb c ","%char then (JNext, acc)
      else if Ascii.eqb c "]"%char then (JEnd, acc) else (JErr, acc)
  | JEnd => if isJsonSpace c then (JEnd, acc) else (JErr, acc)
  | JErr => (JErr, acc)
  end.

Definition Unmarshal (input : bytes) : bytes + list bytes :=
  match fold_left jstep input (JStart, []) with
  | (JEnd, acc) => inr (rev acc)
  | _ => inl (bs "invalid JSON array of strings")
  end.

(** A network as ParseCIDR returns it: bytes below 256, at most 32 leading
    ones, and no address bit outside the mask. *)
Definition wfNet (n : Net) : Prop :=
  (b0 n < 256 /\ b1 n < 256 /\ b2 n < 256 /\ b3 n < 256 /\ ones n <= 32)%N
  /\ N.land (b0 n) (maskByte (ones n) 0) = b0 n
  /\ N.land (b1 n) (maskByte (ones n) 1) = b1 n
  /\ N.land (b2 n) (maskByte (ones n) 2) = b2 n
  /\ N.land (b3 n) (maskByte (ones n) 3) = b3 n.

(** The numbers below [k]. *)
Definition below (k : nat) : list N := map N.of_nat (seq 0 k).

(** What the proofs need of the decimal text of a byte and of a prefix
    length, as checks that run over the whole range. *)
Definition octetCheck (k : N) : bool :=
  match parseOctet (uitoa k) with
  | Some v => (v =? k)%N
  | None => false
  end
  && forallb isDigit (uitoa k).

Definition prefixCheck (k : N) : bool :=
  match parsePrefix (uitoa k) with
  | Some v => (v =? k)%N
  | None => false
  end
  && forallb isDigit (uitoa k).

Definition maskCheck (k : N) : bool :=
  forallb (fun p => forallb (fun i => (N.land k (maskByte p i) <? 256)%N)
                      [0; 1; 2; 3]%N) (below 33).

#[export] Instance std : GoStd := {
  IPNet := Net;
  net_ParseCIDR := ParseCIDR;
  IPNet_String := String;
  IPNet_Contains := Contains;
  json_Unmarshal := Unmarshal
}.

End IPv4.

(** ** BasicDual *)

(** The method Permitted shared by the interfaces HostACL and NetACL (the
    interface ACL of whitelist.go); a call can panic, as BasicNet's does on a
    nil entry. *)
Class ACL (T : Type) : Type := {
  acl_Permitted : T -> IP -> result bool
}.

#[export] Instance BasicNet_ACL {std : GoStd} : ACL BasicNet := {
  acl_Permitted := Permitted
}.

#[export] Instance NetStub_ACL : ACL NetStub := {
  acl_Permitted := NetStub_Permitted
}.

(** Modelled from the spec: HostStub is returned by NewHostStub in
    whitelist.go, which is not among the sources.  The spec has every stub
    report permitted = true for Permitted. *)
Inductive HostStub : Type := mkHostStub.

#[export] Instance HostStub_ACL : ACL HostStub := {
  acl_Permitted := fun _ _ => Ret true
}.

Definition LaunchPolicySequenced : Z := 0.
Definition LaunchPolicyAsync : Z := 1.

Section Dual.

Context {H N : Type} {aclH : ACL H} {aclN : ACL N}.

Record BasicDual : Type := {
  Addresses : H;
  Networks : N;
  launchPolicy : Z
}.

(** The sequenced branch: Go's [||] evaluates its right operand only when the
    left one is false. *)
Definition Permitted_sequenced (wl : BasicDual) (ip : IP) : result bool :=
  a <- acl_Permitted (Addresses wl) ip ;;
  if a then Ret true else acl_Permitted (Networks wl) ip.

(** The asynchronous branch runs three threads of control: the two goroutines
    and the caller, which receives from the channel [res] of capacity 2. *)
Inductive task : Type := GoAddresses | GoNetworks | Caller.

(** Where the caller stands in [<-res || <-res]. *)
Inductive caller_state : Type :=
| RecvFirst              (* blocked in the first receive *)
| RecvSecond             (* the first value was false: in the second receive *)
| Returned (b : bool).

Record config : Type := {
  pendingA : bool;        (* the first goroutine has not sent yet *)
  pendingN : bool;        (* the second goroutine has not sent yet *)
  res : list bool;        (* the buffer of the channel, oldest value first *)
  caller : caller_state;
  crashed : bool          (* a goroutine panicked: the process is gone *)
}.

Definition init : config :=
  {| pendingA := true; pendingN := true; res := []; caller := RecvFirst;
     crashed := false |}.

(** A goroutine evaluates its check and sends the value; a send blocks while
    the buffer holds 2 values. *)
Definition send (c : config) (r : result bool) (pa pn : bool) : option config :=
  match r with
  | Panic =>
      Some {| pendingA := pendingA c; pendingN := pendingN c; res := res c;
              caller := caller c; crashed := true |}
  | Ret b =>
      if length (res c) <? 2 then
        Some {| pendingA := pa; pendingN := pn; res := res c ++ [b];
                caller := caller c; crashed := false |}
      else None
  end.

(** One move of task [t]; [None] when [t] cannot move (it is blocked, has
    finished, or the process has crashed). *)
Definition step (wl : BasicDual) (ip : IP) (t : task) (c : config)
    : option config :=
  if crashed c then None
  else match t with
  | GoAddresses =>
      if pendingA c
      then send c (acl_Permitted (Addresses wl) ip) false (pendingN c)
      else None
  | GoNetworks =>
      if pendingN c
      then send c (acl_Permitted (Networks wl) ip) (pendingA c) false
      else None
  | Caller =>
      match caller c, res c with
      | RecvFirst, v :: rest =>
          Some {| pendingA := pendingA c; pendingN := pendingN c; res := rest;
                  caller := if v then Returned true else RecvSecond;
                  crashed := false |}
      | RecvSecond, v :: rest =>
          Some {| pendingA := pendingA c; pendingN := pendingN c; res := rest;
                  caller := Returned v; crashed := false |}
      | _, _ => None
      end
  end.

(** The tasks move in the order the scheduler picks; picking a task that
    cannot move changes nothing. *)
Fixpoint run (wl : BasicDual) (ip : IP) (sched : list task) (c : config)
    : config :=
  match sched with
  | [] => c
  | t :: rest =>
      match step wl ip t c with
      | Some c' => run wl ip rest c'
      | None => run wl ip rest c
      end
  end.

(** What the caller of Permitted sees under a schedule. *)
Inductive verdict : Type :=
| Returns (b : bool)
| Crashes
| Waits.                 (* the schedule ends before the call returns *)

Definition verdict_of (c : config) : verdict :=
  match caller c with
  | Returned b => Returns b
  | _ => if crashed c then Crashes else Waits
  end.

(** BasicDual.Permitted; the schedule matters to the asynchronous branch
    only. *)
Definition BasicDual_Permitted (wl : BasicDual) (ip : IP) (sched : list task)
    : verdict :=
  if (launchPolicy wl =? LaunchPolicySequenced)%Z then
    match Permitted_sequenced wl ip with
    | Ret b => Returns b
    | Panic => Crashes
    end
  else verdict_of (run wl ip sched init).

Definition NewDual (a : H) (n : N) (policy : Z) : BasicDual :=
  {| Addresses := a; Networks := n; launchPolicy := policy |}.

(** Every task gets the turns it needs: both goroutines send, the caller
    receives twice. *)
Definition finish : list task := [GoAddresses; GoNetworks; Caller; Caller].

(** The invariant of the asynchronous branch when the two checks return [a]
    and [n]: nothing has crashed, and the values the caller has received
    together with those in the buffer are the values sent so far. *)
Definition trues (l : list bool) : nat := length (filter (fun b => b) l).

Definition samebag (l1 l2 : list bool) : bool :=
  (length l1 =? length l2) && (trues l1 =? trues l2).

Definition sent (a n : bool) (c : config) : list bool :=
  (if pendingA c then [] else [a]) ++ (if pendingN c then [] else [n]).

Definition inv (a n : bool) (c : config) : bool :=
  negb (crashed c)
  && match caller c with
     | RecvFirst => samebag (res c) (sent a n c)
     | RecvSecond => samebag (false :: res c) (sent a n c)
     | Returned b =>
         (b && samebag (true :: res c) (sent a n c))
         || samebag (false :: b :: res c) (sent a n c)
     end.

End Dual.

Arguments BasicDual H N : clear implicits.

(** The methods Add and Remove of the interface NetACL. *)
Class NetOps {std : GoStd} (T : Type) : Type := {
  acl_Add : T -> option IPNet -> T;
  acl_Remove : T -> option IPNet -> result T
}.

#[export] Instance BasicNet_NetOps {std : GoStd} : NetOps BasicNet := {
  acl_Add := Add;
  acl_Remove := Remove
}.

(** NetStub.Add and NetStub.Remove only log. *)
#[export] Instance NetStub_NetOps {std : GoStd} : NetOps NetStub := {
  acl_Add := fun wl _ => wl;
  acl_Remove := fun wl _ => Ret wl
}.

Section DualNetworks.

Context {std : GoStd} {H N : Type} {aclH : ACL H} {aclN : ACL N}
        {opsN : NetOps N}.

Definition AddNetwork (wl : BasicDual H N) (n : option IPNet) : BasicDual H N :=
  {| Addresses := Addresses wl;
     Networks := acl_Add (Networks wl) n;
     launchPolicy := launchPolicy wl |}.


End DualNetworks.

(** NewStubDual: both sides stubbed, sequenced. *)
Definition NewStubDual : BasicDual HostStub NetStub :=
  {| Addresses := mkHostStub; Networks := mkNetStub;
     launchPolicy := LaunchPolicySequenced |}.

(** The two sends are the only ones: the values in the buffer and the
    goroutines that have yet to send are two at most. *)
Definition bufferOK (c : config) : Prop :=
  length (res c) + (if pendingA c then 1 else 0)
  + (if pendingN c then 1 else 0) <= 2.

(** ** What the deserialisation loop computes *)

Section Codec.

Context {std : GoStd}.

(** The entries the loop writes, token by token: a nil pointer for a token
    that is empty once trimmed, the parsed network otherwise; [inr addr] at
    the first token that net.ParseCIDR rejects. *)
Fixpoint parseAll (nets : list bytes) : list (option IPNet) + bytes :=
  match nets with
  | [] => inl []
  | s :: rest =>
      let addr := TrimSpace s in
      if bytes_eqb addr [] then
        match parseAll rest with
        | inl es => inl (None :: es)
        | inr a => inr a
        end
      else match net_ParseCIDR addr with
           | Some n =>
               match parseAll rest with
               | inl es => inl (Some n :: es)
               | inr a => inr a
               end
           | None => inr addr
           end
  end.

(** The tokens that are empty once trimmed. *)
Definition isBlank (s : bytes) : bool := bytes_eqb (TrimSpace s) [].

Definition blanks (nets : list bytes) : nat :=
  length (filter isBlank nets).

(** A token the loop accepts: blank, or a CIDR text. *)
Definition acceptable (s : bytes) : Prop :=
  TrimSpace s = [] \/ net_ParseCIDR (TrimSpace s) <> None.

(** A token the loop rejects. *)
Definition rejected (s : bytes) : Prop :=
  TrimSpace s <> [] /\ net_ParseCIDR (TrimSpace s) = None.

(** A network that net.ParseCIDR can return. *)
Definition validNet (n : IPNet) : Prop :=
  exists s, net_ParseCIDR s = Some n.

Definition nonNil (e : option IPNet) : Prop := e <> None.

(** [nets] are the tokens UnmarshalJSON takes from [input]: what is between
    the double quotes, trimmed and split at commas, or what json.Unmarshal
    decodes from the bracketed input. *)
Definition tokensOf (input : bytes) (nets : list bytes) : Prop :=
  (exists mid, input = dquote :: mid ++ [dquote]
               /\ nets = Split (TrimSpace mid) ","%char)
  \/ (exists mid, input = "["%char :: mid ++ ["]"%char]
                  /\ json_Unmarshal input = inr nets).

(** A token that parses to the network [n]. *)
Definition parsesTo (s : bytes) (n : IPNet) : Prop :=
  TrimSpace s <> [] /\ net_ParseCIDR (TrimSpace s) = Some n.

(** Whether a non-nil entry contains the address. *)
Definition contains_ip (ip : IP) (e : option IPNet) : bool :=
  match e with
  | Some n => IPNet_Contains n ip
  | None => false
  end.

End Codec.

(** The text of the two error messages of the loop and of the shape test. *)
Definition errShape : bytes := bs "whitelist.BasicNet: invalid whitelist".
Definition errToken (addr : bytes) : bytes :=
  bs "whitelist.BasicNet: invalid IP network " ++ addr.

(** The bytes of a canonical CIDR text: decimal and lower-case hexadecimal
    digits, the dot, the colon and the slash. *)
Definition cidrChar (c : ascii) : bool :=
  let n := nat_of_ascii c in
  ((48 <=? n) && (n <=? 58)) || ((97 <=? n) && (n <=? 102))
  || (n =? 46) || (n =? 47).

(** The output of the New-format branch of MarshalJSON for the strings
    [ss]. *)
Definition jsonArray (ss : list bytes) : bytes :=
  match ss with
  | [] => bs "[]"
  | _ :: _ =>
      bs "[" ++ [dquote] ++ Join ss ([dquote] ++ bs "," ++ [dquote])
        ++ [dquote] ++ bs "]"
  end.

(** What the round trip needs of the standard library: the canonical text
    of a parsed network parses again, to a network with the same text; it is
    not empty and made of CIDR bytes; and json.Unmarshal decodes an array of
    such literals to the strings between the quotes. *)
Class GoStdLaws (std : GoStd) : Prop := {
  String_reparses :
    forall s n, net_ParseCIDR s = Some n ->
      exists n', net_ParseCIDR (IPNet_String n) = Some n'
                 /\ IPNet_String n' = IPNet_String n;
  String_chars :
    forall s n, net_ParseCIDR s = Some n ->
      IPNet_String n <> [] /\ forallb cidrChar (IPNet_String n) = true;
  json_decodes :
    forall ss, Forall (fun s => forallb cidrChar s = true) ss ->
      json_Unmarshal (jsonArray ss) = inr ss
}.

(** ** Concrete values used in examples *)

Module Examples.

Import IPv4.

(** 192.168.3.0/24 and 192.168.7.0/24, the networks of the package's tests,
    and 10.0.0.0/8. *)
Definition net3 : Net := mkNet 192 168 3 0 24.
Definition net7 : Net := mkNet 192 168 7 0 24.
Definition net10 : Net := mkNet 10 0 0 0 8.

Definition quoted (s : string) : bytes := [dquote] ++ bs s ++ [dquote].

(** A whitelist holding 192.168.3.0/24. *)
Definition acl3 : BasicNet := Add NewBasicNet (Some net3).

(** A whitelist whose only entry is the nil pointer, and one with a nil
    pointer before 192.168.3.0/24. *)
Definition aclNil : BasicNet :=
  {| jsonFormat := JsonFormatCompatibility; whitelist := [None] |}.
Definition aclNil3 : BasicNet :=
  {| jsonFormat := JsonFormatCompatibility; whitelist := [None; Some net3] |}.

(** A whitelist holding 192.168.3.0/24 and 192.168.7.0/24, as the tests
    build it. *)
Definition acl37 : BasicNet := Add acl3 (Some net7).

(** A whitelist of the New format holding 10.0.0.0/8, and one of an
    unknown format. *)
Definition aclNew10 : BasicNet := Add (NewBasicNet2 JsonFormatNew) (Some net10).
Definition aclFormat7 : BasicNet := NewBasicNet2 7.

(** Duals over the stubbed address side. *)
Definition dualNil : BasicDual HostStub BasicNet :=
  NewDual mkHostStub aclNil LaunchPolicyAsync.
Definition dual3 : BasicDual HostStub BasicNet :=
  NewDual mkHostStub acl3 LaunchPolicyAsync.
Definition dualNew : BasicDual HostStub BasicNet :=
  NewDual mkHostStub NewBasicNet LaunchPolicyAsync.

(** The two bytes of U+00A0, the no-break space, in UTF-8. *)
Definition nbsp : bytes := utf8 0xA0.

(** 192.168.3.1 and 192.168.4.1. *)
Definition ip31 : IP := [192; 168; 3; 1]%N.
Definition ip41 : IP := [192; 168; 4; 1]%N.

End Examples.

(** * Properties *)

Section Properties.

Context {std : GoStd}.

(** *** Slices and strings *)

Lemma bytes_eqb_eq (a b : bytes) : bytes_eqb a b = true <-> a = b.
Proof.
  unfold bytes_eqb. destruct (list_eq_dec ascii_dec a b); split; congruence.
Qed.

Lemma bytes_eqb_neq (a b : bytes) : bytes_eqb a b = false <-> a <> b.
Proof.
  unfold bytes_eqb. destruct (list_eq_dec ascii_dec a b); split; congruence.
Qed.

Lemma bytes_eqb_refl (a : bytes) : bytes_eqb a a = true.
Proof. apply bytes_eqb_eq. reflexivity. Qed.

Lemma store_app (A : Type) (pre : list A) (x y : A) (post : list A) :
  store (pre ++ y :: post) (length pre) x = pre ++ x :: post.
Proof.
  induction pre as [|a pre IH]; simpl; [reflexivity|].
  now rewrite IH.
Qed.

Lemma slice_prefix (A : Type) (l : list A) (k : nat) :
  k <= length l -> slice l 0%Z (Z.of_nat k) = Ret (firstn k l).
Proof.
  intros Hk. unfold slice.
  replace ((0 <=? 0)%Z && (0 <=? Z.of_nat k)%Z
           && (Z.of_nat k <=? Z.of_nat (length l))%Z) with true.
  - simpl. now rewrite Z.sub_0_r, Nat2Z.id.
  - symmetry. rewrite !andb_true_iff, !Z.leb_le. lia.
Qed.

Lemma slice_suffix (A : Type) (l : list A) (k : nat) :
  k <= length l -> slice l (Z.of_nat k) (len l) = Ret (skipn k l).
Proof.
  intros Hk. unfold slice, len.
  replace ((0 <=? Z.of_nat k)%Z && (Z.of_nat k <=? Z.of_nat (length l))%Z
           && (Z.of_nat (length l) <=? Z.of_nat (length l))%Z) with true.
  - rewrite Nat2Z.id.
    replace (Z.to_nat (Z.of_nat (length l) - Z.of_nat k)) with (length l - k) by lia.
    rewrite firstn_all2; [reflexivity|]. rewrite length_skipn. lia.
  - symmetry. rewrite !andb_true_iff, !Z.leb_le. lia.
Qed.

(** *** The loop *)

Lemma fill_parseAll (nets : list bytes) :
  forall (pre : list (option IPNet)) (k : Z),
    fill nets (length pre) (pre ++ repeat None (length nets)) k =
    match parseAll nets with
    | inl es => inl (pre ++ es, (k + Z.of_nat (blanks nets))%Z)
    | inr a => inr a
    end.
Proof.
  induction nets as [|s rest IH]; intros pre k.
  - simpl. unfold blanks. simpl. now rewrite Z.add_0_r.
  - cbn [fill parseAll length repeat]. unfold blanks, isBlank. cbn [filter].
    destruct (bytes_eqb (TrimSpace s) []) eqn:E.
    + replace (pre ++ None :: repeat None (length rest))
        with ((pre ++ [None]) ++ repeat None (length rest))
        by now rewrite <- app_assoc.
      replace (S (length pre)) with (length (pre ++ [None]))
        by (rewrite length_app; simpl; lia).
      rewrite IH. destruct (parseAll rest); [|reflexivity].
      rewrite <- app_assoc. cbn [app length]. unfold blanks, isBlank.
      f_equal. f_equal. lia.
    + destruct (net_ParseCIDR (TrimSpace s)) as [n|]; [|reflexivity].
      rewrite store_app.
      replace (pre ++ Some n :: repeat None (length rest))
        with ((pre ++ [Some n]) ++ repeat None (length rest))
        by now rewrite <- app_assoc.
      replace (S (length pre)) with (length (pre ++ [Some n]))
        by (rewrite length_app; simpl; lia).
      rewrite IH. destruct (parseAll rest); [|reflexivity].
      rewrite <- app_assoc. reflexivity.
Qed.

Lemma parseAll_length (nets : list bytes) (es : list (option IPNet)) :
  parseAll nets = inl es -> length es = length nets.
Proof.
  revert es. induction nets as [|s rest IH]; intros es; simpl.
  - intros [= <-]. reflexivity.
  - destruct (bytes_eqb (TrimSpace s) []).
    + destruct (parseAll rest); [|discriminate].
      intros [= <-]. simpl. now rewrite (IH _ eq_refl).
    + destruct (net_ParseCIDR (TrimSpace s)); [|discriminate].
      destruct (parseAll rest); [|discriminate].
      intros [= <-]. simpl. now rewrite (IH _ eq_refl).
Qed.

Lemma blanks_le (nets : list bytes) : blanks nets <= length nets.
Proof. unfold blanks. apply filter_length_le. Qed.

(** From the lock on, UnmarshalJSON either clears the whitelist and reports
    the rejected token, or keeps the first [length nets - blanks nets] of the
    entries it wrote. *)
Lemma populate_parseAll (wl : BasicNet) (nets : list bytes) :
  populate wl nets =
  match parseAll nets with
  | inl es =>
      Ret (set_whitelist wl (firstn (length nets - blanks nets) es), None)
  | inr a =>
      Ret (set_whitelist wl [],
           Some (bs "whitelist.BasicNet: invalid IP network " ++ a))
  end.
Proof.
  unfold populate.
  pose proof (fill_parseAll nets [] 0%Z) as Hf. cbn [length app] in Hf.
  rewrite Hf. destruct (parseAll nets) as [es|a] eqn:E; [|reflexivity].
  pose proof (parseAll_length _ E) as Hl. pose proof (blanks_le nets) as Hb.
  unfold len. rewrite Hl.
  replace (Z.of_nat (length nets) - (0 + Z.of_nat (blanks nets)))%Z
    with (Z.of_nat (length nets - blanks nets)) by lia.
  rewrite slice_prefix by lia. reflexivity.
Qed.

Lemma parseAll_rejects (nets : list bytes) (a : bytes) :
  parseAll nets = inr a ->
  a <> [] /\ net_ParseCIDR a = None /\ exists s, In s nets /\ a = TrimSpace s.
Proof.
  induction nets as [|s rest IH]; simpl; [discriminate|].
  destruct (bytes_eqb (TrimSpace s) []) eqn:E.
  - destruct (parseAll rest); [discriminate|].
    intros [= <-]. destruct (IH eq_refl) as (H1 & H2 & s' & H3 & H4).
    repeat split; auto. exists s'. auto.
  - destruct (net_ParseCIDR (TrimSpace s)) eqn:P.
    + destruct (parseAll rest); [discriminate|].
      intros [= <-]. destruct (IH eq_refl) as (H1 & H2 & s' & H3 & H4).
      repeat split; auto. exists s'. auto.
    + intros [= <-]. apply bytes_eqb_neq in E.
      repeat split; auto. exists s. auto.
Qed.



End Properties.

(** ** UnmarshalJSON *)

Section Unmarshal.

Context {std : GoStd}.

Lemma index_at_first (A : Type) (x : A) (l : list A) :
  index_at (x :: l) 0%Z = Ret x.
Proof. reflexivity. Qed.

Lemma index_at_last (A : Type) (l : list A) (d : A) :
  l <> [] -> index_at l (len l - 1)%Z = Ret (last l d).
Proof.
  intros Hne. unfold index_at, len.
  destruct l as [|x l]; [contradiction|].
  replace (Z.of_nat (length (x :: l)) - 1 <? 0)%Z with false
    by (symmetry; apply Z.ltb_ge; simpl length; lia).
  replace (Z.to_nat (Z.of_nat (length (x :: l)) - 1)) with (length l)
    by (simpl length; lia).
  clear Hne. revert x. induction l as [|y l IH]; intros x; [reflexivity|].
  cbn [length nth_error]. rewrite IH. reflexivity.
Qed.

Lemma slice_inner (A : Type) (x y : A) (mid : list A) :
  slice (x :: mid ++ [y]) 1%Z (len (x :: mid ++ [y]) - 1)%Z = Ret mid.
Proof.
  unfold slice, len. cbn [length]. rewrite length_app. cbn [length].
  replace ((0 <=? 1)%Z
           && (1 <=? Z.of_nat (S (length mid + 1)) - 1)%Z
           && (Z.of_nat (S (length mid + 1)) - 1
               <=? Z.of_nat (S (length mid + 1)))%Z) with true
    by (symmetry; rewrite !andb_true_iff, !Z.leb_le; lia).
  replace (Z.to_nat (Z.of_nat (S (length mid + 1)) - 1 - 1)) with (length mid)
    by lia.
  change (Z.to_nat 1) with 1. cbn [skipn].
  rewrite firstn_app, firstn_all, Nat.sub_diag. cbn [firstn].
  apply f_equal, app_nil_r.
Qed.

(** With an opening and a closing bracket the input goes to json.Unmarshal. *)
Lemma UnmarshalJSON_brackets (wl : BasicNet) (mid : bytes) :
  let input := "["%char :: mid ++ ["]"%char] in
  UnmarshalJSON wl input =
  match json_Unmarshal input with
  | inl msg => Ret (wl, Some (bs "whitelist.BasicNet: " ++ msg))
  | inr nets => populate wl nets
  end.
Proof.
  intros input. unfold UnmarshalJSON.
  rewrite (index_at_last (l := input) "["%char) by discriminate.
  subst input. rewrite index_at_first. cbn [bind].
  change ("["%char :: mid ++ ["]"%char]) with (("["%char :: mid) ++ ["]"%char]).
  rewrite last_last. reflexivity.
Qed.

(** Between two double quotes the input is trimmed and split at commas. *)
Lemma UnmarshalJSON_quotes (wl : BasicNet) (mid : bytes) :
  UnmarshalJSON wl (dquote :: mid ++ [dquote]) =
  populate wl (Split (TrimSpace mid) ","%char).
Proof.
  unfold UnmarshalJSON.
  rewrite (index_at_last (l := dquote :: mid ++ [dquote]) dquote) by discriminate.
  rewrite index_at_first. cbn [bind].
  change (dquote :: mid ++ [dquote]) with ((dquote :: mid) ++ [dquote]) at 1 2 3.
  rewrite last_last. cbn [Ascii.eqb]. 
  change (Ascii.eqb dquote "["%char) with false.
  change (Ascii.eqb dquote dquote) with true. cbn [andb negb orb].
  change ((dquote :: mid) ++ [dquote]) with (dquote :: mid ++ [dquote]).
  rewrite slice_inner. reflexivity.
Qed.

(** Any other non-empty input is refused and the receiver is not touched. *)
Lemma UnmarshalJSON_shape (wl : BasicNet) (first : ascii) (rest : bytes) :
  let input := first :: rest in
  let final := last input first in
  ~ (first = "["%char /\ final = "]"%char) ->
  ~ (first = dquote /\ final = dquote) ->
  UnmarshalJSON wl input = Ret (wl, Some errShape).
Proof.
  intros input final Hb Hq. unfold UnmarshalJSON.
  rewrite (index_at_last (l := input) first) by discriminate.
  subst input. rewrite index_at_first. cbn [bind]. fold final.
  destruct (Ascii.eqb first "["%char) eqn:E1;
    destruct (Ascii.eqb final "]"%char) eqn:E2;
    destruct (Ascii.eqb first dquote) eqn:E3;
    destruct (Ascii.eqb final dquote) eqn:E4;
    cbn [andb negb orb]; try reflexivity;
    rewrite ?Ascii.eqb_eq in *; exfalso; auto.
Qed.

End Unmarshal.

Section UnmarshalClaims.

Context {std : GoStd}.

(** C10 (the code misses the case): UnmarshalJSON reads [in[0]] and
    [in[len(in)-1]] without testing the length, so the empty input panics
    with an index out of range; the one-byte input made of a double quote
    passes both reads and panics in [in[1 : len(in)-1]]. *)
Theorem C10_empty_input_panics (wl : BasicNet) :
  UnmarshalJSON wl [] = Panic /\ UnmarshalJSON wl [dquote] = Panic.
Proof. split; reflexivity. Qed.

(** Every input of two bytes or more, and every one-byte input other than a
    double quote, makes UnmarshalJSON return. *)
Lemma UnmarshalJSON_returns (wl : BasicNet) (input : bytes) :
  input <> [] -> input <> [dquote] ->
  exists wl' e, UnmarshalJSON wl input = Ret (wl', e).
Proof.
  intros Hne Hq. destruct input as [|first rest]; [contradiction|].
  destruct (ascii_dec first "["%char) as [Hf|Hf];
    [destruct (ascii_dec (last (first :: rest) first) "]"%char) as [Hl|Hl]|].
  - subst first.
    destruct (exists_last (l := rest)) as (mid & y & ->).
    { intros ->. simpl in Hl. discriminate. }
    change ("["%char :: mid ++ [y]) with (("["%char :: mid) ++ [y]) in Hl.
    rewrite last_last in Hl. subst y.
    rewrite UnmarshalJSON_brackets.
    destruct (json_Unmarshal _); [eauto|].
    rewrite populate_parseAll. destruct (parseAll _); eauto.
  - destruct (ascii_dec first dquote) as [Hd|Hd].
    + subst first. discriminate.
    + rewrite UnmarshalJSON_shape; [eauto| |]; intros [? ?]; congruence.
  - destruct (ascii_dec first dquote) as [Hd|Hd];
      [destruct (ascii_dec (last (first :: rest) first) dquote) as [Hl|Hl]|].
    + subst first.
      destruct (exists_last (l := rest)) as (mid & y & ->).
      { intros ->. contradiction. }
      change (dquote :: mid ++ [y]) with ((dquote :: mid) ++ [y]) in Hl.
      rewrite last_last in Hl. subst y.
      rewrite UnmarshalJSON_quotes, populate_parseAll.
      destruct (parseAll _); eauto.
    + rewrite UnmarshalJSON_shape; [eauto| |]; intros [? ?]; congruence.
    + rewrite UnmarshalJSON_shape; [eauto| |]; intros [? ?]; congruence.
Qed.

(** C1 (amended): when UnmarshalJSON returns an error, either a token failed
    CIDR parsing and the whitelist is empty afterwards whatever it held, or
    the input was refused before the lock (its shape matches neither
    encoding, or json.Unmarshal rejected the array) and the receiver is
    exactly as before; so a whitelist that was empty is empty after every
    failed call. *)
Theorem C1_error_state (wl wl' : BasicNet) (input msg : bytes) :
  UnmarshalJSON wl input = Ret (wl', Some msg) ->
  ((whitelist wl' = []
    /\ exists addr, addr <> [] /\ net_ParseCIDR addr = None
                    /\ msg = errToken addr)
   \/ (wl' = wl
       /\ (msg = errShape
           \/ exists e, json_Unmarshal input = inl e
                        /\ msg = bs "whitelist.BasicNet: " ++ e)))
  /\ (whitelist wl = [] -> whitelist wl' = []).
Proof.
  intros Hr.
  assert (Hmain :
    (whitelist wl' = []
     /\ exists addr, addr <> [] /\ net_ParseCIDR addr = None
                     /\ msg = errToken addr)
    \/ (wl' = wl
        /\ (msg = errShape
            \/ exists e, json_Unmarshal input = inl e
                         /\ msg = bs "whitelist.BasicNet: " ++ e))).
  { unfold UnmarshalJSON in Hr.
    destruct (index_at input 0) as [first|]; [|discriminate].
    destruct (index_at input (len input - 1)) as [final|]; [|discriminate].
    cbn [bind] in Hr.
    destruct (negb (Ascii.eqb first "[" && Ascii.eqb final "]")
              && (negb (Ascii.eqb first dquote)
                  || negb (Ascii.eqb final dquote))).
    - injection Hr as <- <-. right. split; [reflexivity|]. left. reflexivity.
    - assert (Hpop : forall nets,
                populate wl nets = Ret (wl', Some msg) ->
                whitelist wl' = []
                /\ exists addr, addr <> [] /\ net_ParseCIDR addr = None
                                /\ msg = errToken addr).
      { intros nets Hp. rewrite populate_parseAll in Hp.
        destruct (parseAll nets) as [es|a] eqn:E; [discriminate|].
        injection Hp as <- <-. split; [reflexivity|].
        destruct (parseAll_rejects _ E) as (H1 & H2 & _). exists a. auto. }
      destruct (negb (Ascii.eqb first "[" && Ascii.eqb final "]")).
      + destruct (slice input 1 (len input - 1)) as [inner|]; [|discriminate].
        cbn [bind] in Hr. left. eapply Hpop, Hr.
      + destruct (json_Unmarshal input) as [e|nets] eqn:J.
        * injection Hr as <- <-. right. split; [reflexivity|]. right. eauto.
        * left. eapply Hpop, Hr. }
  split; [exact Hmain|].
  intros Hw. destruct Hmain as [[H _]|[-> _]]; assumption.
Qed.

(** C6 (amended): UnmarshalJSON chooses the decoding by the first and the
    last byte of the input as given, skipping no white space: an opening and
    a closing bracket send the input to the JSON array decoder, two double
    quotes (on an input of at least two bytes) to the comma-separated
    decoder, and any other non-empty input is refused with the error
    whitelist.BasicNet: invalid whitelist, the receiver untouched; so an
    encoding with white space before or after it is refused. *)
Theorem C6_shape_detection (wl : BasicNet) :
  (forall mid,
     UnmarshalJSON wl ("["%char :: mid ++ ["]"%char]) =
     match json_Unmarshal ("["%char :: mid ++ ["]"%char]) with
     | inl msg => Ret (wl, Some (bs "whitelist.BasicNet: " ++ msg))
     | inr nets => populate wl nets
     end)
  /\ (forall mid,
        UnmarshalJSON wl (dquote :: mid ++ [dquote]) =
        populate wl (Split (TrimSpace mid) ","%char))
  /\ (forall first rest,
        ~ (first = "["%char /\ last (first :: rest) first = "]"%char) ->
        ~ (first = dquote /\ last (first :: rest) first = dquote) ->
        UnmarshalJSON wl (first :: rest) = Ret (wl, Some errShape))
  /\ (forall first rest,
        isSpace first = true \/ isSpace (last (first :: rest) first) = true ->
        UnmarshalJSON wl (first :: rest) = Ret (wl, Some errShape)).
Proof.
  split; [|split; [|split]].
  - intros mid. apply UnmarshalJSON_brackets.
  - intros mid. apply UnmarshalJSON_quotes.
  - intros first rest. apply UnmarshalJSON_shape.
  - intros first rest Hs. apply UnmarshalJSON_shape.
    + intros [H1 H2]. rewrite H2 in Hs. rewrite H1 in Hs.
      destruct Hs; discriminate.
    + intros [H1 H2]. rewrite H2 in Hs. rewrite H1 in Hs.
      destruct Hs; discriminate.
Qed.


End UnmarshalClaims.

(** ** Permitted, Add and Remove *)

Section BasicNetClaims.

Context {std : GoStd}.

(** On a whitelist without nil entries the loop of Permitted returns, and it
    returns whether some entry contains the address. *)
Lemma scan_existsb (l : list (option IPNet)) (ip : IP) :
  Forall nonNil l -> scan l ip = Ret (existsb (contains_ip ip) l).
Proof.
  induction 1 as [|e l He _ IH]; [reflexivity|].
  destruct e as [n|]; [|now elim He]. cbn [scan entry_Contains bind existsb contains_ip].
  destruct (IPNet_Contains n ip); [reflexivity|exact IH].
Qed.

(** The loop stops at the first entry that contains the address: the entries
    after it are not looked at, be they nil. *)
Lemma scan_first_match (l1 l2 : list (option IPNet)) (n : IPNet) (ip : IP) :
  Forall nonNil l1 ->
  existsb (contains_ip ip) l1 = false ->
  IPNet_Contains n ip = true ->
  scan (l1 ++ Some n :: l2) ip = Ret true.
Proof.
  induction 1 as [|e l He _ IH]; cbn [app scan entry_Contains bind existsb].
  - intros _ ->. reflexivity.
  - destruct e as [m|]; [|now elim He]. cbn [contains_ip entry_Contains bind].
    destruct (IPNet_Contains m ip); [discriminate|]. exact IH.
Qed.

(** C4 (amended): Permitted returns false, without panicking, on an invalid
    address whatever the whitelist holds; on a valid address and a whitelist
    whose entries are all non-nil it returns, and it returns true exactly
    when some entry contains the address. *)
Theorem C4_permitted (wl : BasicNet) (ip : IP) :
  (validIP ip = false -> Permitted wl ip = Ret false)
  /\ (validIP ip = true -> Forall nonNil (whitelist wl) ->
      exists b, Permitted wl ip = Ret b
                /\ (b = true <->
                    exists n, In (Some n) (whitelist wl)
                              /\ IPNet_Contains n ip = true)).
Proof.
  unfold Permitted. split.
  - intros ->. reflexivity.
  - intros -> Hnn. cbn [negb]. rewrite (scan_existsb ip Hnn).
    eexists. split; [reflexivity|]. rewrite existsb_exists. split.
    + intros ([n|] & Hin & Hc); [eauto|discriminate].
    + intros (n & Hin & Hc). exists (Some n). auto.
Qed.

Lemma findIndex_none (l : list (option IPNet)) (s : bytes) (i : Z) :
  Forall (fun e => entry_String e <> s) l -> findIndex l s i = (-1)%Z.
Proof.
  intros Hl. revert i. induction Hl as [|e l He _ IH]; intros i; [reflexivity|].
  cbn [findIndex]. apply bytes_eqb_neq in He. rewrite He. apply IH.
Qed.

Lemma findIndex_first (l1 l2 : list (option IPNet)) (e : option IPNet)
    (s : bytes) (i : Z) :
  Forall (fun x => entry_String x <> s) l1 -> entry_String e = s ->
  findIndex (l1 ++ e :: l2) s i = (i + Z.of_nat (length l1))%Z.
Proof.
  intros Hl He. revert i. induction Hl as [|x l Hx _ IH]; intros i.
  - cbn [app findIndex length]. rewrite He, bytes_eqb_refl. lia.
  - cbn [app findIndex length]. apply bytes_eqb_neq in Hx. rewrite Hx, IH. lia.
Qed.

(** A list with an element that satisfies [P] splits at the first one. *)
Lemma split_first (A : Type) (P : A -> Prop)
    (dec : forall a, {P a} + {~ P a}) (l : list A) :
  Exists P l ->
  exists l1 e l2, l = l1 ++ e :: l2 /\ P e /\ Forall (fun x => ~ P x) l1.
Proof.
  induction l as [|a l IH]; intros Hex; [inversion Hex|].
  destruct (dec a) as [Ha|Ha].
  - exists [], a, l. auto.
  - inversion Hex as [? ? Hp|? ? Hl]; subst; [contradiction|].
    destruct (IH Hl) as (l1 & e & l2 & -> & He & Hf).
    exists (a :: l1), e, l2. auto.
Qed.

Lemma Remove_at (wl : BasicNet) (n : IPNet) (l1 l2 : list (option IPNet))
    (e : option IPNet) :
  whitelist wl = l1 ++ e :: l2 ->
  entry_String e = IPNet_String n ->
  Forall (fun x => entry_String x <> IPNet_String n) l1 ->
  Remove wl (Some n) = Ret (set_whitelist wl (l1 ++ l2)).
Proof.
  intros Hw He Hl. unfold Remove. cbn [entry_String]. rewrite Hw.
  rewrite (findIndex_first l2 e 0%Z Hl He). cbn [Z.add].
  replace (Z.of_nat (length l1) =? -1)%Z with false
    by (symmetry; apply Z.eqb_neq; lia).
  rewrite slice_prefix by (rewrite length_app; lia).
  replace (Z.of_nat (length l1) + 1)%Z with (Z.of_nat (S (length l1))) by lia.
  rewrite slice_suffix by (rewrite length_app; simpl; lia).
  cbn [bind]. rewrite firstn_app, firstn_all, Nat.sub_diag. cbn [firstn].
  rewrite app_nil_r.
  replace (skipn (S (length l1)) (l1 ++ e :: l2)) with l2; [reflexivity|].
  clear. induction l1 as [|x l1 IH]; [reflexivity|exact IH].
Qed.

(** C8: Remove(nil) leaves the whitelist as it is; Remove(n) leaves it as it
    is, and returns, when no entry prints as [n] does; and when some entry
    does, Remove(n) deletes the first such entry and keeps all the others in
    their order. *)
Theorem C8_remove (wl : BasicNet) (n : IPNet) :
  Remove wl None = Ret wl
  /\ (Forall (fun e => entry_String e <> IPNet_String n) (whitelist wl) ->
      Remove wl (Some n) = Ret wl)
  /\ (Exists (fun e => entry_String e = IPNet_String n) (whitelist wl) ->
      exists l1 e l2,
        whitelist wl = l1 ++ e :: l2
        /\ entry_String e = IPNet_String n
        /\ Forall (fun x => entry_String x <> IPNet_String n) l1
        /\ Remove wl (Some n) = Ret (set_whitelist wl (l1 ++ l2))).
Proof.
  split; [reflexivity|]. split.
  - intros Hf. unfold Remove. cbn [entry_String].
    rewrite (findIndex_none 0%Z Hf). reflexivity.
  - intros Hex.
    destruct (split_first
                (fun e => list_eq_dec ascii_dec (entry_String e) (IPNet_String n))
                Hex) as (l1 & e & l2 & Hw & He & Hl).
    exists l1, e, l2. repeat split; auto. eapply Remove_at; eauto.
Qed.

End BasicNetClaims.

(** ** The two launch policies of BasicDual *)

Section DualClaims.

Context {H N : Type} {aclH : ACL H} {aclN : ACL N}.

Variables (wl : BasicDual H N) (ip : IP) (a n : bool).
Hypothesis Ha : acl_Permitted (Addresses wl) ip = Ret a.
Hypothesis Hn : acl_Permitted (Networks wl) ip = Ret n.

Ltac split_config c :=
  destruct c as [pa pn r cs cr];
  destruct cr; [discriminate|];
  destruct pa, pn, cs as [| |[|]], a, n;
  destruct r as [|[|] [|[|] [|z r]]];
  try discriminate.

Lemma inv_init : inv a n init = true.
Proof. reflexivity. Qed.

Lemma inv_step (t : task) (c c' : config) :
  inv a n c = true -> step wl ip t c = Some c' -> inv a n c' = true.
Proof.
  unfold step, send. rewrite Ha, Hn. clear Ha Hn. intros Hi Hs.
  split_config c; destruct t; cbn in Hs; try discriminate;
    injection Hs as <-; reflexivity.
Qed.

Lemma inv_run (sched : list task) :
  forall c, inv a n c = true -> inv a n (run wl ip sched c) = true.
Proof.
  induction sched as [|t sched IH]; intros c Hi; [exact Hi|].
  cbn [run]. destruct (step wl ip t c) as [c'|] eqn:E.
  - apply IH. eapply inv_step; eauto.
  - apply IH, Hi.
Qed.

Lemma inv_returned (c : config) (b : bool) :
  inv a n c = true -> caller c = Returned b -> b = a || n.
Proof.
  clear Ha Hn. intros Hi Hc.
  split_config c; cbn in Hc; try discriminate; injection Hc as <-;
    reflexivity.
Qed.

Lemma inv_not_crashed (c : config) : inv a n c = true -> crashed c = false.
Proof.
  unfold inv. destruct (crashed c); [discriminate|reflexivity].
Qed.

Lemma inv_finish (c : config) :
  inv a n c = true -> caller (run wl ip finish c) = Returned (a || n).
Proof.
  unfold finish, run, step, send. rewrite Ha, Hn. clear Ha Hn. intros Hi.
  split_config c; reflexivity.
Qed.

End DualClaims.

(** C3: for sub-ACL states whose checks return [a] and [n] on the address,
    Permitted returns [a || n] under the sequenced policy, and under the
    asynchronous policy it returns [a || n] too, in whatever order the
    goroutines and the caller are scheduled: no schedule makes it return
    another value or crash, and once every task has had its turns the call
    has returned. *)
Theorem C3_policy_parity (H N : Type) (aclH : ACL H) (aclN : ACL N)
    (addresses : H) (networks : N) (ip : IP) (a n : bool)
    (sched : list task) :
  acl_Permitted addresses ip = Ret a ->
  acl_Permitted networks ip = Ret n ->
  let sequenced := NewDual addresses networks LaunchPolicySequenced in
  let async := NewDual addresses networks LaunchPolicyAsync in
  BasicDual_Permitted sequenced ip sched = Returns (a || n)
  /\ (forall b, BasicDual_Permitted async ip sched = Returns b -> b = a || n)
  /\ BasicDual_Permitted async ip sched <> Crashes
  /\ BasicDual_Permitted async ip (sched ++ finish) = Returns (a || n).
Proof.
  intros Ha Hn sequenced async.
  assert (Hi : forall s, inv a n (run async ip s init) = true).
  { intros s. apply inv_run; [exact Ha|exact Hn|reflexivity]. }
  split; [|split; [|split]].
  - unfold BasicDual_Permitted, Permitted_sequenced. cbn.
    rewrite Ha. cbn. destruct a; [reflexivity|]. rewrite Hn. reflexivity.
  - intros b. unfold BasicDual_Permitted, verdict_of. cbn.
    destruct (caller (run async ip sched init)) eqn:E.
    + destruct (crashed _); discriminate.
    + destruct (crashed _); discriminate.
    + intros [= ->]. eapply (@inv_returned a n); [apply Hi|exact E].
  - unfold BasicDual_Permitted, verdict_of. cbn.
    rewrite (@inv_not_crashed a n _ (Hi sched)).
    destruct (caller (run async ip sched init)); discriminate.
  - unfold BasicDual_Permitted, verdict_of. cbn.
    assert (Hrun : forall s1 s2 c,
              run async ip (s1 ++ s2) c = run async ip s2 (run async ip s1 c)).
    { induction s1 as [|t s1 IH]; intros s2 c; [reflexivity|].
      cbn [app run]. destruct (step async ip t c); apply IH. }
    rewrite Hrun, (@inv_finish _ _ _ _ async ip a n Ha Hn _ (Hi sched)). reflexivity.
Qed.

(** ** Serialising and deserialising *)

Section RoundTrip.

Context {std : GoStd}.

Lemma cidrChar_not_space (c : ascii) : cidrChar c = true -> isSpace c = false.
Proof.
  destruct c as [[] [] [] [] [] [] [] []]; vm_compute; congruence.
Qed.

Lemma cidrChar_not_comma (c : ascii) :
  cidrChar c = true -> Ascii.eqb c ","%char = false.
Proof.
  destruct c as [[] [] [] [] [] [] [] []]; vm_compute; congruence.
Qed.

Lemma cidrChar_plain (c : ascii) : cidrChar c = true -> plainByte c = true.
Proof.
  destruct c as [[] [] [] [] [] [] [] []]; vm_compute; congruence.
Qed.

(** No encoding of a white-space rune starts with an ASCII byte that is not
    white space, and none ends with one. *)
Lemma stripOne_plain (c : ascii) (r : bytes) :
  plainByte c = true ->
  stripOne spaceEncodings (c :: r) = None
  /\ stripOne (map (@rev ascii) spaceEncodings) (c :: r) = None.
Proof.
  destruct c as [[] [] [] [] [] [] [] []]; vm_compute; intros Hc;
    try discriminate; split; reflexivity.
Qed.

Lemma stripAll_plain (fuel : nat) (s : bytes) :
  Forall (fun c => plainByte c = true) s ->
  stripAll fuel spaceEncodings s = s
  /\ stripAll fuel (map (@rev ascii) spaceEncodings) s = s.
Proof.
  intros Hs. destruct fuel as [|f]; [split; reflexivity|].
  destruct Hs as [|c r Hc _]; [split; reflexivity|].
  destruct (stripOne_plain c r Hc) as [H1 H2].
  cbn [stripAll]. rewrite H1, H2. split; reflexivity.
Qed.

(** Trimming leaves alone a string made of ASCII bytes that are not white
    space. *)
Lemma TrimSpace_id (s : bytes) :
  Forall (fun c => plainByte c = true) s -> TrimSpace s = s.
Proof.
  intros Hs. unfold TrimSpace, TrimLeft, TrimRight.
  rewrite (proj1 (stripAll_plain (length s) Hs)).
  rewrite (proj2 (stripAll_plain (length s) (Forall_rev Hs))).
  apply rev_involutive.
Qed.

Lemma Split_no_sep (s : bytes) (sep : ascii) :
  Forall (fun c => Ascii.eqb c sep = false) s -> Split s sep = [s].
Proof.
  induction 1 as [|c r Hc _ IH]; [reflexivity|].
  cbn [Split]. rewrite Hc, IH. reflexivity.
Qed.

Lemma Split_app (s rest : bytes) (sep : ascii) :
  Forall (fun c => Ascii.eqb c sep = false) s ->
  Split (s ++ sep :: rest) sep = s :: Split rest sep.
Proof.
  induction 1 as [|c r Hc _ IH]; cbn [app Split].
  - rewrite Ascii.eqb_refl. reflexivity.
  - rewrite Hc, IH. reflexivity.
Qed.

(** Splitting at commas undoes joining with commas when no string holds a
    comma (and there is a string at all). *)
Lemma Split_Join (ss : list bytes) :
  ss <> [] ->
  Forall (Forall (fun c => Ascii.eqb c ","%char = false)) ss ->
  Split (Join ss (bs ",")) ","%char = ss.
Proof.
  intros Hne Hss. induction Hss as [|s rest Hs Hrest IH]; [contradiction|].
  destruct rest as [|s' rest].
  - cbn [Join]. now apply Split_no_sep.
  - change (Join (s :: s' :: rest) (bs ","))
      with (s ++ ","%char :: Join (s' :: rest) (bs ",")).
    rewrite Split_app by assumption. rewrite IH by discriminate. reflexivity.
Qed.

Lemma Join_Forall (P : ascii -> Prop) (ss : list bytes) (sep : bytes) :
  Forall (Forall P) ss -> Forall P sep -> Forall P (Join ss sep).
Proof.
  intros Hss Hsep. induction Hss as [|s rest Hs Hrest IH]; [constructor|].
  destruct rest as [|s' rest]; [exact Hs|].
  change (Join (s :: s' :: rest) sep) with (s ++ sep ++ Join (s' :: rest) sep).
  rewrite !Forall_app. auto.
Qed.

Lemma forallb_Forall_impl (P : ascii -> Prop) (f : ascii -> bool) (s : bytes) :
  (forall c, f c = true -> P c) -> forallb f s = true -> Forall P s.
Proof.
  intros Hf Hs. rewrite forallb_forall in Hs. apply Forall_forall. auto.
Qed.

Context {laws : GoStdLaws std}.

Lemma validNet_chars (n : IPNet) :
  validNet n -> forallb cidrChar (IPNet_String n) = true.
Proof. intros [s Hs]. apply (String_chars _ Hs). Qed.

(** On the canonical texts of valid networks the loop skips nothing and
    parses every token to a network with the same text. *)
Lemma parseAll_canonical (nets : list IPNet) :
  Forall validNet nets ->
  exists nets',
    parseAll (map IPNet_String nets) = inl (map Some nets')
    /\ map IPNet_String nets' = map IPNet_String nets
    /\ blanks (map IPNet_String nets) = 0.
Proof.
  induction 1 as [|n rest Hn _ IH].
  - exists []. auto.
  - destruct IH as (rest' & Hp & Hm & Hb).
    pose proof Hn as [s Hs].
    destruct (String_reparses _ Hs) as (n' & Hre & Hsame).
    destruct (String_chars _ Hs) as [Hne Hch].
    assert (Ht : TrimSpace (IPNet_String n) = IPNet_String n).
    { apply TrimSpace_id.
      eapply forallb_Forall_impl; [apply cidrChar_plain|exact Hch]. }
    exists (n' :: rest'). cbn [map parseAll]. unfold blanks, isBlank in *.
    cbn [filter]. rewrite Ht.
    apply bytes_eqb_neq in Hne. rewrite Hne, Hre, Hp, Hsame, Hm. auto.
Qed.

Lemma populate_canonical (target : BasicNet) (nets : list IPNet) :
  Forall validNet nets ->
  exists wl',
    populate target (map IPNet_String nets) = Ret (wl', None)
    /\ map entry_String (whitelist wl') = map IPNet_String nets
    /\ Forall nonNil (whitelist wl')
    /\ jsonFormat wl' = jsonFormat target.
Proof.
  intros Hv. destruct (parseAll_canonical Hv) as (nets' & Hp & Hm & Hb).
  rewrite populate_parseAll, Hp, Hb, Nat.sub_0_r.
  assert (Hlen : length (map Some nets') <= length (map IPNet_String nets)).
  { apply (f_equal (@length _)) in Hm. rewrite !length_map in *. lia. }
  rewrite firstn_all2 by exact Hlen.
  eexists. split; [reflexivity|]. cbn [set_whitelist whitelist jsonFormat].
  split; [|split; [|reflexivity]].
  - rewrite map_map. exact Hm.
  - apply Forall_forall. intros e He. apply in_map_iff in He.
    destruct He as (x & <- & _). discriminate.
Qed.

(** C5: a BasicNet that holds valid networks serialises without error under
    either format, and UnmarshalJSON of the output succeeds on any receiver
    and leaves it with entries that print, one by one and in the same order,
    as the original entries do (so the sets of canonical texts are equal);
    the empty whitelist serialises as two double quotes or as []. *)
Theorem C5_round_trip (nets : list IPNet) (format : Z) (target : BasicNet) :
  Forall validNet nets ->
  format = JsonFormatCompatibility \/ format = JsonFormatNew ->
  let wl := {| jsonFormat := format; whitelist := map Some nets |} in
  exists out wl',
    MarshalJSON wl = (out, None)
    /\ UnmarshalJSON target out = Ret (wl', None)
    /\ map entry_String (whitelist wl') = map IPNet_String nets
    /\ Forall nonNil (whitelist wl')
    /\ (nets = [] ->
        out = if (format =? JsonFormatCompatibility)%Z
              then [dquote; dquote] else bs "[]").
Proof.
  intros Hv Hf wl.
  assert (Hss : map entry_String (whitelist wl) = map IPNet_String nets).
  { subst wl. cbn [whitelist]. now rewrite map_map. }
  assert (Hch : Forall (fun s => forallb cidrChar s = true)
                  (map IPNet_String nets)).
  { apply Forall_forall. intros s Hs. apply in_map_iff in Hs.
    destruct Hs as (n & <- & Hin). apply validNet_chars.
    rewrite Forall_forall in Hv. auto. }
  unfold MarshalJSON. rewrite Hss. cbn [jsonFormat wl].
  destruct Hf as [-> | ->].
  - (* the comma-separated string *)
    change (JsonFormatCompatibility =? JsonFormatCompatibility)%Z with true.
    cbv iota.
    exists ([dquote] ++ Join (map IPNet_String nets) (bs ",") ++ [dquote]).
    destruct nets as [|n0 rest].
    + exists (set_whitelist target []). repeat split; auto.
    + destruct (populate_canonical target Hv) as (wl' & Hp & Hm & Hnn & _).
      exists wl'. split; [reflexivity|]. split; [|split; [|split]]; auto.
      * change ([dquote] ++ Join (map IPNet_String (n0 :: rest)) (bs ",")
                  ++ [dquote])
          with (dquote :: Join (map IPNet_String (n0 :: rest)) (bs ",")
                  ++ [dquote]).
        rewrite UnmarshalJSON_quotes.
        rewrite TrimSpace_id.
        -- rewrite Split_Join; [exact Hp|discriminate|].
           eapply Forall_impl; [|exact Hch]. intros s Hs.
           eapply forallb_Forall_impl; [apply cidrChar_not_comma|exact Hs].
        -- apply Join_Forall.
           ++ eapply Forall_impl; [|exact Hch]. intros s Hs.
              eapply forallb_Forall_impl; [apply cidrChar_plain|exact Hs].
           ++ repeat constructor.
      * discriminate.
  - (* the array of strings *)
    change (JsonFormatNew =? JsonFormatCompatibility)%Z with false.
    change (JsonFormatNew =? JsonFormatNew)%Z with true. cbv iota.
    destruct (populate_canonical target Hv) as (wl' & Hp & Hm & Hnn & _).
    exists (jsonArray (map IPNet_String nets)), wl'.
    split; [|split; [|split; [|split]]]; auto.
    + destruct nets; reflexivity.
    + assert (Hshape : exists mid,
                jsonArray (map IPNet_String nets) = "["%char :: mid ++ ["]"%char]).
      { unfold jsonArray. destruct (map IPNet_String nets) as [|s ss].
        - exists []. reflexivity.
        - exists (dquote :: Join (s :: ss) ([dquote] ++ bs "," ++ [dquote])
                           ++ [dquote]).
          cbn [bs list_ascii_of_string app]. rewrite <- app_assoc.
          reflexivity. }
      destruct Hshape as [mid Hshape]. rewrite Hshape.
      rewrite UnmarshalJSON_brackets. cbv zeta. rewrite <- Hshape.
      rewrite (json_decodes Hch). exact Hp.
    + intros ->. reflexivity.
Qed.

End RoundTrip.

(** ** The IPv4 implementation meets the laws *)

Module IPv4Laws.

Import IPv4.

Lemma below_spec (k : nat) (P : N -> bool) :
  forallb P (below k) = true ->
  forall x, (x < N.of_nat k)%N -> P x = true.
Proof.
  intros Hall x Hx. rewrite forallb_forall in Hall. apply Hall.
  unfold below. apply in_map_iff. exists (N.to_nat x). split.
  - apply N2Nat.id.
  - apply in_seq. lia.
Qed.

Lemma octet_text (k : N) :
  (k < 256)%N ->
  parseOctet (uitoa k) = Some k /\ forallb isDigit (uitoa k) = true.
Proof.
  intros Hk.
  assert (Hc : octetCheck k = true).
  { apply (below_spec 256); [vm_compute; reflexivity|exact Hk]. }
  unfold octetCheck in Hc. apply andb_true_iff in Hc. destruct Hc as [H1 H2].
  split; [|exact H2].
  destruct (parseOctet (uitoa k)) as [v|]; [|discriminate].
  apply N.eqb_eq in H1. now subst.
Qed.

Lemma prefix_text (k : N) :
  (k <= 32)%N ->
  parsePrefix (uitoa k) = Some k /\ forallb isDigit (uitoa k) = true.
Proof.
  intros Hk.
  assert (Hc : prefixCheck k = true).
  { apply (below_spec 33); [vm_compute; reflexivity|lia]. }
  unfold prefixCheck in Hc. apply andb_true_iff in Hc. destruct Hc as [H1 H2].
  split; [|exact H2].
  destruct (parsePrefix (uitoa k)) as [v|]; [|discriminate].
  apply N.eqb_eq in H1. now subst.
Qed.

Lemma masked_byte (k p i : N) :
  (k < 256)%N -> (p <= 32)%N -> In i [0; 1; 2; 3]%N ->
  (N.land k (maskByte p i) < 256)%N.
Proof.
  intros Hk Hp Hi.
  assert (Hc : maskCheck k = true).
  { apply (below_spec 256); [vm_compute; reflexivity|exact Hk]. }
  unfold maskCheck in Hc.
  assert (Hp' : (p < N.of_nat 33)%N) by lia.
  pose proof (below_spec 33 _ Hc Hp') as Hq. cbv beta in Hq.
  rewrite forallb_forall in Hq. apply N.ltb_lt. auto.
Qed.

Lemma parseOctet_bound (f : bytes) (v : N) :
  parseOctet f = Some v -> (v < 256)%N.
Proof.
  unfold parseOctet. destruct f as [|c r]; [discriminate|].
  destruct (negb (forallb isDigit (c :: r))); [discriminate|].
  destruct (Ascii.eqb c "0" && negb (bytes_eqb r [])); [discriminate|].
  destruct (3 <? length (c :: r)); [discriminate|].
  destruct (decimal (c :: r) 0 <=? 255)%N eqn:E; [|discriminate].
  intros Hv. replace v with (decimal (c :: r) 0%N) by congruence.
  apply N.leb_le in E. lia.
Qed.

Lemma parsePrefix_bound (f : bytes) (v : N) :
  parsePrefix f = Some v -> (v <= 32)%N.
Proof.
  unfold parsePrefix. destruct f as [|c r]; [discriminate|].
  destruct (negb (forallb isDigit (c :: r))); [discriminate|].
  destruct (8 <? length (c :: r)); [discriminate|].
  destruct (decimal (c :: r) 0 <=? 32)%N eqn:E; [|discriminate].
  intros Hv. replace v with (decimal (c :: r) 0%N) by congruence.
  now apply N.leb_le in E.
Qed.

Lemma land_twice (a m : N) : N.land (N.land a m) m = N.land a m.
Proof. now rewrite <- N.land_assoc, N.land_diag. Qed.

(** Whatever ParseCIDR returns is well formed. *)
Lemma ParseCIDR_wf (s : bytes) (n : Net) : ParseCIDR s = Some n -> wfNet n.
Proof.
  unfold ParseCIDR. destruct (cut s "/") as [[addr mask]|]; [|discriminate].
  destruct (map parseOctet (Split addr "."))
    as [|[a0|] [|[a1|] [|[a2|] [|[a3|] [|]]]]] eqn:Em;
    try discriminate.
  all: try (destruct (parsePrefix mask); discriminate).
  destruct (parsePrefix mask) as [p|] eqn:Ep; [|discriminate].
  intros [= <-]. unfold wfNet. cbn [b0 b1 b2 b3 ones].
  pose proof (parsePrefix_bound _ Ep) as Hp.
  assert (Hb : forall a i, In i [0; 1; 2; 3]%N ->
                 In (Some a) [Some a0; Some a1; Some a2; Some a3] ->
                 (N.land a (maskByte p i) < 256)%N).
  { intros a i Hi Hin. rewrite <- Em in Hin. apply in_map_iff in Hin.
    destruct Hin as (f & Hf & _).
    apply masked_byte; auto. eapply parseOctet_bound; eauto. }
  rewrite !land_twice. repeat split; auto.
  all: apply Hb; cbn [In]; auto 10.
Qed.

Lemma isDigit_chars (c : ascii) :
  isDigit c = true ->
  cidrChar c = true /\ Ascii.eqb c "."%char = false
  /\ Ascii.eqb c "/"%char = false.
Proof.
  destruct c as [[] [] [] [] [] [] [] []]; vm_compute; intros; try discriminate;
    auto.
Qed.

Lemma cut_app (s rest : bytes) (sep : ascii) :
  Forall (fun c => Ascii.eqb c sep = false) s ->
  cut (s ++ sep :: rest) sep = Some (s, rest).
Proof.
  induction 1 as [|c r Hc _ IH]; cbn [app cut].
  - rewrite Ascii.eqb_refl. reflexivity.
  - rewrite Hc, IH. reflexivity.
Qed.

Lemma digits_Forall (P : ascii -> Prop) (s : bytes) :
  (forall c, isDigit c = true -> P c) ->
  forallb isDigit s = true -> Forall P s.
Proof.
  intros Hp Hs. rewrite forallb_forall in Hs. apply Forall_forall. auto.
Qed.

(** The canonical text of a well-formed network parses to that network. *)
Lemma ParseCIDR_String (n : Net) : wfNet n -> ParseCIDR (String n) = Some n.
Proof.
  destruct n as [x0 x1 x2 x3 p]. unfold wfNet. cbn [b0 b1 b2 b3 ones].
  intros ((H0 & H1 & H2 & H3 & Hp) & M0 & M1 & M2 & M3).
  destruct (octet_text H0) as [P0 D0]. destruct (octet_text H1) as [P1 D1].
  destruct (octet_text H2) as [P2 D2]. destruct (octet_text H3) as [P3 D3].
  destruct (prefix_text Hp) as [Pp Dp].
  assert (Hdot : forall s, forallb isDigit s = true ->
                   Forall (fun c => Ascii.eqb c "."%char = false) s).
  { intros s. apply digits_Forall. intros c Hc. apply isDigit_chars, Hc. }
  assert (Hsl : forall s, forallb isDigit s = true ->
                  Forall (fun c => Ascii.eqb c "/"%char = false) s).
  { intros s. apply digits_Forall. intros c Hc. apply isDigit_chars, Hc. }
  unfold ParseCIDR, String. cbn [b0 b1 b2 b3 ones].
  replace (uitoa x0 ++ bs "." ++ uitoa x1 ++ bs "." ++ uitoa x2 ++ bs "."
             ++ uitoa x3 ++ bs "/" ++ uitoa p)
    with ((uitoa x0 ++ bs "." ++ uitoa x1 ++ bs "." ++ uitoa x2 ++ bs "."
             ++ uitoa x3) ++ "/"%char :: uitoa p)
    by (cbn [bs list_ascii_of_string app];
        repeat (rewrite <- app_assoc; cbn [app]); reflexivity).
  rewrite cut_app.
  - cbn [bs list_ascii_of_string app].
    rewrite !Split_app, Split_no_sep by auto.
    cbn [map]. rewrite P0, P1, P2, P3, Pp, M0, M1, M2, M3. reflexivity.
  - rewrite !Forall_app. cbn [bs list_ascii_of_string].
    repeat split; auto; repeat constructor.
Qed.

Lemma String_cidrChars (n : Net) :
  wfNet n -> String n <> [] /\ forallb cidrChar (String n) = true.
Proof.
  destruct n as [x0 x1 x2 x3 p]. unfold wfNet. cbn [b0 b1 b2 b3 ones].
  intros ((H0 & H1 & H2 & H3 & Hp) & _).
  destruct (octet_text H0) as [P0 D0]. destruct (octet_text H1) as [_ D1].
  destruct (octet_text H2) as [_ D2]. destruct (octet_text H3) as [_ D3].
  destruct (prefix_text Hp) as [_ Dp].
  assert (Hc : forall s, forallb isDigit s = true -> forallb cidrChar s = true).
  { intros s Hs. rewrite forallb_forall in *. intros c Hin.
    apply isDigit_chars. auto. }
  unfold String. cbn [b0 b1 b2 b3 ones]. split.
  - destruct (uitoa x0); [discriminate|discriminate].
  - rewrite !forallb_app, (Hc _ D0), (Hc _ D1), (Hc _ D2), (Hc _ D3), (Hc _ Dp).
    reflexivity.
Qed.

(** The automaton reads a literal made of CIDR bytes up to its closing
    quote. *)
Lemma jstep_cidrChar (c : ascii) (cur : bytes) (acc : list bytes) :
  cidrChar c = true -> jstep (JStr cur, acc) c = (JStr (c :: cur), acc).
Proof.
  destruct c as [[] [] [] [] [] [] [] []]; vm_compute; intros; try discriminate;
    reflexivity.
Qed.

Lemma read_literal (s : bytes) :
  forallb cidrChar s = true ->
  forall cur acc,
    fold_left jstep s (JStr cur, acc) = (JStr (rev s ++ cur), acc).
Proof.
  induction s as [|c r IH]; intros Hs cur acc; [reflexivity|].
  cbn [forallb] in Hs. apply andb_true_iff in Hs. destruct Hs as [Hc Hr].
  cbn [fold_left]. rewrite (jstep_cidrChar c cur acc Hc), (IH Hr).
  cbn [rev]. now rewrite <- app_assoc.
Qed.

Lemma read_elements (ss : list bytes) :
  Forall (fun s => forallb cidrChar s = true) ss ->
  forall s acc,
    forallb cidrChar s = true ->
    fold_left jstep
      (Join (s :: ss) ([dquote] ++ bs "," ++ [dquote]) ++ [dquote] ++ bs "]")
      (JStr [], acc)
    = (JEnd, rev (s :: ss) ++ acc).
Proof.
  induction 1 as [|s' ss Hs' _ IH]; intros s acc Hs.
  - cbn [Join]. rewrite fold_left_app, (read_literal _ Hs).
    rewrite app_nil_r. cbn. now rewrite rev_involutive.
  - change (Join (s :: s' :: ss) ([dquote] ++ bs "," ++ [dquote]))
      with (s ++ ([dquote] ++ bs "," ++ [dquote])
              ++ Join (s' :: ss) ([dquote] ++ bs "," ++ [dquote])).
    rewrite <- !app_assoc, fold_left_app, (read_literal _ Hs), app_nil_r.
    cbn [bs list_ascii_of_string app fold_left].
    change (jstep (JStr (rev s), acc) dquote) with (JAfter, rev (rev s) :: acc).
    change (jstep (JAfter, rev (rev s) :: acc) ","%char)
      with (JNext, rev (rev s) :: acc).
    change (jstep (JNext, rev (rev s) :: acc) dquote)
      with (JStr [], rev (rev s) :: acc).
    rewrite rev_involutive.
    pose proof (IH s' (s :: acc) Hs') as IH'.
    cbn [bs list_ascii_of_string app] in IH'.
    eapply eq_trans; [exact IH'|].
    cbn [rev]. now rewrite <- !app_assoc.
Qed.

Lemma Unmarshal_jsonArray (ss : list bytes) :
  Forall (fun s => forallb cidrChar s = true) ss ->
  Unmarshal (jsonArray ss) = inr ss.
Proof.
  intros [|s rest Hs Hrest]; [reflexivity|].
  unfold Unmarshal, jsonArray.
  cbn [bs list_ascii_of_string app fold_left].
  change (jstep (jstep (JStart, []) "["%char) dquote) with (JStr [], @nil bytes).
  pose proof (read_elements Hrest s [] Hs) as Hr.
  cbn [bs list_ascii_of_string app] in Hr. rewrite Hr.
  now rewrite app_nil_r, rev_involutive.
Qed.

#[export] Instance laws : GoStdLaws IPv4.std.
Proof.
  constructor.
  - intros s n Hs. exists n. split; [|reflexivity].
    apply ParseCIDR_String. eapply ParseCIDR_wf, Hs.
  - intros s n Hs. apply String_cidrChars. eapply ParseCIDR_wf, Hs.
  - apply Unmarshal_jsonArray.
Qed.

End IPv4Laws.

(** ** Runs of the code on concrete inputs *)

Module Runs.

Import IPv4 IPv4Laws Examples.

(** C1 (counterexample): a whitelist that holds 192.168.3.0/24 is handed the
    unquoted input of the package's test; UnmarshalJSON returns the shape
    error and the whitelist still holds its entry. *)
Lemma C1_counterexample :
  UnmarshalJSON acl3 (bs "192.168.3.1/24,127.0.0.1/32")
  = Ret (acl3, Some errShape)
  /\ whitelist acl3 = [Some net3].
Proof. split; reflexivity. Qed.

Lemma C1_witness :
  UnmarshalJSON acl3 (quoted "192.168.3.1,127.0.0.256")
  = Ret (set_whitelist acl3 [], Some (errToken (bs "192.168.3.1")))
  /\ (((whitelist (set_whitelist acl3 []) = []
        /\ exists addr, addr <> [] /\ net_ParseCIDR addr = None
                        /\ errToken (bs "192.168.3.1") = errToken addr)
       \/ (set_whitelist acl3 [] = acl3
           /\ (errToken (bs "192.168.3.1") = errShape
               \/ exists e,
                    json_Unmarshal (quoted "192.168.3.1,127.0.0.256") = inl e
                    /\ errToken (bs "192.168.3.1")
                       = bs "whitelist.BasicNet: " ++ e)))
      /\ (whitelist acl3 = [] -> whitelist (set_whitelist acl3 []) = [])).
Proof.
  split; [reflexivity|].
  apply (C1_error_state acl3 (quoted "192.168.3.1,127.0.0.256")).
  reflexivity.
Defined.

(** C2 (the code at the failing input): the empty token between the two
    networks leaves a nil pointer at index 1, and cutting one element off the
    end drops 192.168.7.0/24 instead: the result is 192.168.3.0/24 followed by
    a nil pointer. *)
Theorem C2_failing_input :
  UnmarshalJSON NewBasicNet (quoted "192.168.3.0/24,,192.168.7.0/24")
  = Ret ({| jsonFormat := JsonFormatCompatibility;
            whitelist := [Some net3; None] |}, None).
Proof. reflexivity. Qed.

Lemma C3_witness :
  acl_Permitted mkHostStub ip41 = Ret true
  /\ acl_Permitted acl3 ip41 = Ret false
  /\ let sched := [Caller; GoNetworks; Caller; GoAddresses] in
     let sequenced := NewDual mkHostStub acl3 LaunchPolicySequenced in
     let async := NewDual mkHostStub acl3 LaunchPolicyAsync in
     BasicDual_Permitted sequenced ip41 sched = Returns (true || false)
     /\ (forall b, BasicDual_Permitted async ip41 sched = Returns b ->
                   b = true || false)
     /\ BasicDual_Permitted async ip41 sched <> Crashes
     /\ BasicDual_Permitted async ip41 (sched ++ finish)
        = Returns (true || false).
Proof.
  split; [reflexivity|]. split; [reflexivity|].
  apply (C3_policy_parity HostStub_ACL BasicNet_ACL mkHostStub acl3 ip41
           [Caller; GoNetworks; Caller; GoAddresses]);
    reflexivity.
Defined.

(** C3 (counterexample): the network whitelist is what deserialising the
    string with an empty first token leaves, a single nil entry, and the
    address side permits 192.168.3.1.  The sequenced policy returns true
    without running the network check; under the asynchronous policy the
    network goroutine panics on the nil entry and the process crashes before
    the caller has received a value. *)
Lemma C3_counterexample :
  UnmarshalJSON NewBasicNet (quoted ",192.168.3.0/24") = Ret (aclNil, None)
  /\ acl_Permitted mkHostStub ip31 = Ret true
  /\ BasicDual_Permitted (NewDual mkHostStub aclNil LaunchPolicySequenced)
       ip31 [GoNetworks; GoAddresses; Caller; Caller] = Returns true
  /\ BasicDual_Permitted (NewDual mkHostStub aclNil LaunchPolicyAsync)
       ip31 [GoNetworks; GoAddresses; Caller; Caller] = Crashes.
Proof. repeat split; reflexivity. Qed.

(** C4 (counterexample): 192.168.3.1 is a valid address and the second entry
    of the whitelist contains it, but the first entry is a nil pointer and
    Permitted panics on it instead of returning true. *)
Lemma C4_counterexample :
  validIP ip31 = true
  /\ In (Some net3) (whitelist aclNil3)
  /\ IPNet_Contains net3 ip31 = true
  /\ Permitted aclNil3 ip31 = Panic.
Proof. repeat split; try reflexivity. right. left. reflexivity. Qed.

Lemma C4_witness :
  validIP [0; 0]%N = false
  /\ validIP ip31 = true
  /\ Forall nonNil (whitelist acl3)
  /\ Permitted acl3 [0; 0]%N = Ret false
  /\ exists b, Permitted acl3 ip31 = Ret b
               /\ (b = true <->
                   exists n, In (Some n) (whitelist acl3)
                             /\ IPNet_Contains n ip31 = true).
Proof.
  split; [reflexivity|]. split; [reflexivity|].
  assert (Hnn : Forall nonNil (whitelist acl3))
    by (repeat constructor; discriminate).
  split; [exact Hnn|]. split.
  - apply (proj1 (C4_permitted acl3 [0; 0]%N)). reflexivity.
  - apply (proj2 (C4_permitted acl3 ip31)); [reflexivity|exact Hnn].
Defined.

Lemma C5_witness :
  Forall validNet [net3; net7]
  /\ (JsonFormatNew = JsonFormatCompatibility \/ JsonFormatNew = JsonFormatNew)
  /\ exists out wl',
       MarshalJSON {| jsonFormat := JsonFormatNew;
                      whitelist := map Some [net3; net7] |} = (out, None)
       /\ UnmarshalJSON NewBasicNet out = Ret (wl', None)
       /\ map entry_String (whitelist wl') = map IPNet_String [net3; net7]
       /\ Forall nonNil (whitelist wl')
       /\ ([net3; net7] = [] ->
           out = if (JsonFormatNew =? JsonFormatCompatibility)%Z
                 then [dquote; dquote] else bs "[]").
Proof.
  assert (Hv : Forall validNet [net3; net7]).
  { repeat constructor.
    - exists (bs "192.168.3.0/24"). reflexivity.
    - exists (bs "192.168.7.0/24"). reflexivity. }
  split; [exact Hv|]. split; [right; reflexivity|].
  apply (C5_round_trip (laws := laws) NewBasicNet Hv). right. reflexivity.
Defined.

(** C6 (counterexample): the Compatibility encoding of 192.168.3.0/24
    decodes, and the same bytes after one space are refused as an invalid
    whitelist: the first byte is the space, not the double quote. *)
Lemma C6_counterexample :
  UnmarshalJSON NewBasicNet (quoted "192.168.3.0/24")
  = Ret (acl3, None)
  /\ UnmarshalJSON NewBasicNet (bs " " ++ quoted "192.168.3.0/24")
     = Ret (NewBasicNet, Some errShape).
Proof. split; reflexivity. Qed.

Lemma C6_witness :
  (isSpace " "%char = true
   \/ isSpace (last (bs " " ++ quoted "192.168.3.0/24") " "%char) = true)
  /\ UnmarshalJSON NewBasicNet (" "%char :: quoted "192.168.3.0/24")
     = Ret (NewBasicNet, Some errShape).
Proof.
  split; [left; reflexivity|].
  apply (proj2 (proj2 (proj2 (C6_shape_detection NewBasicNet)))).
  left. reflexivity.
Defined.



Lemma C8_witness :
  Forall (fun e => entry_String e <> IPNet_String net7) (whitelist acl3)
  /\ Exists (fun e => entry_String e = IPNet_String net3)
       (whitelist (Add (Add acl3 (Some net7)) (Some net3)))
  /\ Remove acl3 None = Ret acl3
  /\ Remove acl3 (Some net7) = Ret acl3
  /\ exists l1 e l2,
       whitelist (Add (Add acl3 (Some net7)) (Some net3)) = l1 ++ e :: l2
       /\ entry_String e = IPNet_String net3
       /\ Forall (fun x => entry_String x <> IPNet_String net3) l1
       /\ Remove (Add (Add acl3 (Some net7)) (Some net3)) (Some net3)
          = Ret (set_whitelist (Add (Add acl3 (Some net7)) (Some net3))
                   (l1 ++ l2)).
Proof.
  assert (H1 : Forall (fun e => entry_String e <> IPNet_String net7)
                 (whitelist acl3)) by (repeat constructor; discriminate).
  assert (H2 : Exists (fun e => entry_String e = IPNet_String net3)
                 (whitelist (Add (Add acl3 (Some net7)) (Some net3))))
    by (apply Exists_cons_hd; reflexivity).
  split; [exact H1|]. split; [exact H2|]. split; [|split].
  - apply (proj1 (C8_remove acl3 net7)).
  - apply (proj1 (proj2 (C8_remove acl3 net7))). exact H1.
  - apply (proj2 (proj2 (C8_remove (Add (Add acl3 (Some net7)) (Some net3))
                           net3))).
    exact H2.
Defined.

(** C9 (the code at the failing input): a new whitelist deserialises the
    Compatibility string whose first token is empty; the call succeeds and
    leaves a nil pointer as the only entry, on which the next Permitted
    panics. *)
Theorem C9_failing_input :
  UnmarshalJSON NewBasicNet (quoted ",192.168.3.0/24") = Ret (aclNil, None)
  /\ Permitted aclNil ip31 = Panic.
Proof. split; reflexivity. Qed.

(** Trimming is Unicode's: the no-break space alone is an empty token, and
    around a network it is dropped. *)
Example TrimSpace_unicode :
  TrimSpace nbsp = []
  /\ TrimSpace (bs " " ++ nbsp ++ bs "10.0.0.0/8" ++ utf8 0x2003 ++ [byteOf 0x09])
     = bs "10.0.0.0/8"
  /\ TrimSpace [byteOf 0x85] = [byteOf 0x85]
  /\ TrimSpace (bs "a" ++ [byteOf 0xC2]) = bs "a" ++ [byteOf 0xC2].
Proof. repeat split; reflexivity. Qed.

Example UnmarshalJSON_nbsp_tokens :
  UnmarshalJSON NewBasicNet ([dquote] ++ bs "10.0.0.0/8," ++ nbsp ++ [dquote])
  = Ret (Add NewBasicNet (Some net10), None)
  /\ UnmarshalJSON NewBasicNet ([dquote] ++ bs "10.0.0.0/8" ++ nbsp ++ [dquote])
     = Ret (Add NewBasicNet (Some net10), None).
Proof. split; reflexivity. Qed.

End Runs.

(** ** How Add, Remove and Permitted compose *)

Section BasicNetMore.

Context {std : GoStd}.

Lemma scan_app_nonNil (l1 l2 : list (option IPNet)) (ip : IP) :
  Forall nonNil l1 ->
  scan (l1 ++ l2) ip =
  if existsb (contains_ip ip) l1 then Ret true else scan l2 ip.
Proof.
  induction 1 as [|e l He _ IH]; [reflexivity|].
  destruct e as [m|]; [|now elim He].
  cbn [app scan entry_Contains bind existsb contains_ip].
  destruct (IPNet_Contains m ip); [reflexivity|exact IH].
Qed.

(** X1: on a whitelist without nil entries and a valid address, Permitted
    after Add(n) returns what it returned before, or-ed with whether [n]
    contains the address. *)
Theorem X1_Add_then_Permitted (wl : BasicNet) (n : IPNet) (ip : IP) :
  validIP ip = true -> Forall nonNil (whitelist wl) ->
  exists b, Permitted wl ip = Ret b
            /\ Permitted (Add wl (Some n)) ip = Ret (b || IPNet_Contains n ip).
Proof.
  intros Hv Hnn. unfold Permitted. rewrite Hv. cbn [negb Add set_whitelist whitelist].
  exists (existsb (contains_ip ip) (whitelist wl)).
  split; [apply scan_existsb, Hnn|].
  rewrite scan_app_nonNil by exact Hnn.
  destruct (existsb (contains_ip ip) (whitelist wl)); [reflexivity|].
  cbn [scan entry_Contains bind orb]. destruct (IPNet_Contains n ip); reflexivity.
Qed.

Lemma scan_true_app (l1 l2 : list (option IPNet)) (ip : IP) :
  scan l1 ip = Ret true -> scan (l1 ++ l2) ip = Ret true.
Proof.
  induction l1 as [|e l IH]; [discriminate|].
  cbn [app scan]. destruct e as [m|]; [|discriminate].
  cbn [entry_Contains bind]. destruct (IPNet_Contains m ip); auto.
Qed.

(** X2: Add never takes a permission away: an address that Permitted
    accepts is still accepted after any Add, nil argument and nil entries
    included. *)
Theorem X2_Add_keeps_permitted (wl : BasicNet) (n : option IPNet) (ip : IP) :
  Permitted wl ip = Ret true -> Permitted (Add wl n) ip = Ret true.
Proof.
  destruct n as [n|]; [|auto]. unfold Permitted.
  destruct (negb (validIP ip)); [discriminate|].
  cbn [Add set_whitelist whitelist]. apply scan_true_app.
Qed.

(** A list either has an element that prints as [s] or has none. *)
Lemma prints_dec (l : list (option IPNet)) (s : bytes) :
  Exists (fun e => entry_String e = s) l
  \/ Forall (fun e => entry_String e <> s) l.
Proof.
  induction l as [|e l [IH|IH]]; auto.
  destruct (list_eq_dec ascii_dec (entry_String e) s); auto.
Qed.

Lemma Remove_absent (wl : BasicNet) (n : IPNet) :
  Forall (fun e => entry_String e <> IPNet_String n) (whitelist wl) ->
  Remove wl (Some n) = Ret wl.
Proof.
  intros Hf. unfold Remove. cbn [entry_String].
  rewrite (findIndex_none 0%Z Hf). reflexivity.
Qed.

Lemma Remove_first (wl : BasicNet) (n : IPNet) :
  Exists (fun e => entry_String e = IPNet_String n) (whitelist wl) ->
  exists l1 e l2,
    whitelist wl = l1 ++ e :: l2
    /\ entry_String e = IPNet_String n
    /\ Forall (fun x => entry_String x <> IPNet_String n) l1
    /\ Remove wl (Some n) = Ret (set_whitelist wl (l1 ++ l2)).
Proof.
  intros Hex.
  destruct (split_first
              (fun e => list_eq_dec ascii_dec (entry_String e) (IPNet_String n))
              Hex) as (l1 & e & l2 & Hw & He & Hl).
  exists l1, e, l2. repeat split; auto. eapply Remove_at; eauto.
Qed.

(** X3: Remove returns on every state and argument (its two slice
    expressions are always in bounds), keeps the format, and shortens the
    whitelist by one entry or not at all. *)
Theorem X3_Remove_returns (wl : BasicNet) (n : option IPNet) :
  exists wl', Remove wl n = Ret wl'
              /\ jsonFormat wl' = jsonFormat wl
              /\ (length (whitelist wl') = length (whitelist wl)
                  \/ S (length (whitelist wl')) = length (whitelist wl)).
Proof.
  destruct n as [n|]; [|exists wl; auto].
  destruct (prints_dec (whitelist wl) (IPNet_String n)) as [Hex|Hno].
  - destruct (Remove_first wl n Hex) as (l1 & e & l2 & Hw & _ & _ & Hr).
    eexists. split; [exact Hr|]. split; [reflexivity|].
    right. cbn [set_whitelist whitelist]. rewrite Hw, !length_app. simpl. lia.
  - exists wl. split; [|auto]. apply Remove_absent, Hno.
Qed.

Lemma set_whitelist_same (wl : BasicNet) : set_whitelist wl (whitelist wl) = wl.
Proof. destruct wl. reflexivity. Qed.

(** X4: Remove(n) right after Add(n) takes exactly one entry out again, so
    the whitelist has its former length; and when no entry printed as [n]
    before, the whitelist is what it was before the Add. *)
Theorem X4_Add_then_Remove (wl : BasicNet) (n : IPNet) :
  exists wl',
    Remove (Add wl (Some n)) (Some n) = Ret wl'
    /\ length (whitelist wl') = length (whitelist wl)
    /\ (Forall (fun e => entry_String e <> IPNet_String n) (whitelist wl) ->
        wl' = wl).
Proof.
  destruct (prints_dec (whitelist wl) (IPNet_String n)) as [Hex|Hno].
  - assert (Hex' : Exists (fun e => entry_String e = IPNet_String n)
                     (whitelist (Add wl (Some n)))).
    { cbn [Add set_whitelist whitelist]. apply Exists_app. auto. }
    destruct (Remove_first _ n Hex') as (l1 & e & l2 & Hw & _ & _ & Hr).
    eexists. split; [exact Hr|]. split.
    + apply (f_equal (@length _)) in Hw. cbn [Add set_whitelist whitelist] in *.
      rewrite !length_app in *. cbn [length] in *. lia.
    + intros Hno. exfalso. apply Exists_exists in Hex.
      destruct Hex as (x & Hin & Hx). rewrite Forall_forall in Hno.
      exact (Hno x Hin Hx).
  - exists wl. split; [|auto].
    rewrite (@Remove_at _ (Add wl (Some n)) n (whitelist wl) [] (Some n));
      auto.
    rewrite app_nil_r. cbn [Add set_whitelist jsonFormat].
    destruct wl; reflexivity.
Qed.

(** X5: Add and Remove keep the whitelist free of nil entries. *)
Theorem X5_nonNil_kept (wl : BasicNet) (n : option IPNet) :
  Forall nonNil (whitelist wl) ->
  Forall nonNil (whitelist (Add wl n))
  /\ forall wl', Remove wl n = Ret wl' -> Forall nonNil (whitelist wl').
Proof.
  intros Hnn. split.
  - destruct n as [n|]; [|exact Hnn]. cbn [Add set_whitelist whitelist].
    apply Forall_app. split; [exact Hnn|]. repeat constructor. discriminate.
  - intros wl' Hr. destruct n as [n|]; [|injection Hr as <-; exact Hnn].
    destruct (prints_dec (whitelist wl) (IPNet_String n)) as [Hex|Hno].
    + destruct (Remove_first wl n Hex) as (l1 & e & l2 & Hw & _ & _ & Hr').
      rewrite Hr' in Hr. injection Hr as <-. cbn [set_whitelist whitelist].
      rewrite Hw in Hnn. apply Forall_app in Hnn. destruct Hnn as [H1 H2].
      apply Forall_app. split; [exact H1|]. now inversion H2.
    + rewrite (Remove_absent wl n Hno) in Hr. injection Hr as <-. exact Hnn.
Qed.

(** X6: Remove never grants a permission: on a whitelist without nil
    entries, an address accepted after a Remove was accepted before it. *)
Theorem X6_Remove_grants_nothing (wl wl' : BasicNet) (n : option IPNet)
    (ip : IP) :
  Forall nonNil (whitelist wl) ->
  Remove wl n = Ret wl' ->
  Permitted wl' ip = Ret true -> Permitted wl ip = Ret true.
Proof.
  intros Hnn Hr. destruct n as [n|]; [|injection Hr as <-; auto].
  destruct (prints_dec (whitelist wl) (IPNet_String n)) as [Hex|Hno].
  - destruct (Remove_first wl n Hex) as (l1 & e & l2 & Hw & _ & _ & Hr').
    rewrite Hr' in Hr. injection Hr as <-. unfold Permitted.
    destruct (negb (validIP ip)); [auto|]. cbn [set_whitelist whitelist].
    rewrite Hw in *. apply Forall_app in Hnn. destruct Hnn as [H1 H2].
    inversion H2 as [|? ? He H2']; subst.
    rewrite !scan_existsb by (apply Forall_app; auto).
    rewrite !existsb_app. cbn [existsb]. intros [= Hb]. f_equal.
    destruct (existsb (contains_ip ip) l1); [reflexivity|].
    cbn [orb] in *. rewrite Hb. apply orb_true_r.
  - rewrite (Remove_absent wl n Hno) in Hr. injection Hr as <-. auto.
Qed.

(** X7: entries are not deduplicated: after the same network is added twice
    and removed once, one copy is left and an address of the network is still
    permitted. *)
Theorem X7_duplicates (wl : BasicNet) (n : IPNet) (ip : IP) :
  Forall nonNil (whitelist wl) ->
  validIP ip = true -> IPNet_Contains n ip = true ->
  exists wl',
    Remove (Add (Add wl (Some n)) (Some n)) (Some n) = Ret wl'
    /\ length (whitelist wl') = S (length (whitelist wl))
    /\ Permitted wl' ip = Ret true.
Proof.
  intros Hnn Hv Hc.
  set (wl2 := Add (Add wl (Some n)) (Some n)).
  assert (Hw2 : whitelist wl2 = (whitelist wl ++ [Some n]) ++ [Some n])
    by reflexivity.
  assert (Hex : Exists (fun e => entry_String e = IPNet_String n)
                  (whitelist wl2)).
  { rewrite Hw2. apply Exists_app. right. constructor. reflexivity. }
  destruct (Remove_first wl2 n Hex) as (l1 & e & l2 & Hw & He & Hl & Hr).
  exists (set_whitelist wl2 (l1 ++ l2)). split; [exact Hr|].
  assert (Hl2 : exists l2', l2 = l2' ++ [Some n]).
  { destruct (exists_last (l := l2)) as (l2' & x & ->).
    - intros ->. rewrite Hw2 in Hw.
      change (l1 ++ [e]) with (l1 ++ [e]) in Hw.
      apply app_inj_tail in Hw. destruct Hw as [Hw _]. subst l1.
      apply Forall_app in Hl. destruct Hl as [_ Hl].
      inversion Hl as [|? ? Hx _]; subst. now elim Hx.
    - exists l2'. rewrite Hw2 in Hw.
      replace (l1 ++ e :: l2' ++ [x]) with ((l1 ++ e :: l2') ++ [x]) in Hw
        by now rewrite <- app_assoc.
      apply app_inj_tail in Hw. destruct Hw as [_ ->]. reflexivity. }
  destruct Hl2 as [l2' ->]. cbn [set_whitelist whitelist]. split.
  - apply (f_equal (@length _)) in Hw. rewrite Hw2 in Hw.
    rewrite !length_app in *. cbn [length] in *. rewrite !length_app in *.
    cbn [length] in *. lia.
  - unfold Permitted. rewrite Hv. cbn [negb set_whitelist whitelist].
    assert (Hnn2 : Forall nonNil (l1 ++ l2' ++ [Some n])).
    { assert (Hall : Forall nonNil (whitelist wl2)).
      { rewrite Hw2. rewrite !Forall_app. repeat split; auto;
          repeat constructor; discriminate. }
      rewrite Hw in Hall. rewrite !Forall_app in *.
      destruct Hall as [H1 H2]. inversion H2 as [|? ? _ H3]; subst.
      apply Forall_app in H3. tauto. }
    rewrite scan_existsb by exact Hnn2. f_equal.
    rewrite !existsb_app. cbn [existsb contains_ip]. rewrite Hc.
    rewrite !orb_true_r. reflexivity.
Qed.

(** X8: MarshalJSON succeeds exactly under the two known formats, with an
    output of at least two bytes; under any other format it returns no bytes
    and the error whitelist.Basic: unsupported JSON format. *)
Theorem X8_MarshalJSON_formats (wl : BasicNet) :
  (jsonFormat wl = JsonFormatCompatibility \/ jsonFormat wl = JsonFormatNew ->
   exists out, MarshalJSON wl = (out, None) /\ 2 <= length out)
  /\ (jsonFormat wl <> JsonFormatCompatibility ->
      jsonFormat wl <> JsonFormatNew ->
      MarshalJSON wl
      = ([], Some (bs "whitelist.Basic: unsupported JSON format"))).
Proof.
  unfold MarshalJSON. split.
  - intros [-> | ->].
    + change (JsonFormatCompatibility =? JsonFormatCompatibility)%Z with true.
      eexists. split; [reflexivity|]. cbn [app length].
      rewrite length_app. cbn [length]. lia.
    + change (JsonFormatNew =? JsonFormatCompatibility)%Z with false.
      change (JsonFormatNew =? JsonFormatNew)%Z with true. cbv iota.
      destruct (0 <? len (map entry_String (whitelist wl)))%Z.
      * eexists. split; [reflexivity|].
        cbn [bs list_ascii_of_string app length]. lia.
      * eexists. split; [reflexivity|]. cbn. lia.
  - intros H1 H2. apply Z.eqb_neq in H1, H2. rewrite H1, H2. reflexivity.
Qed.

End BasicNetMore.

(** ** More on UnmarshalJSON *)

Section UnmarshalMore.

Context {std : GoStd}.

Lemma UnmarshalJSON_tokens (wl : BasicNet) (input : bytes) (nets : list bytes) :
  tokensOf input nets -> UnmarshalJSON wl input = populate wl nets.
Proof.
  intros [(mid & -> & ->)|(mid & -> & Hj)].
  - apply UnmarshalJSON_quotes.
  - rewrite UnmarshalJSON_brackets. cbv zeta. rewrite Hj. reflexivity.
Qed.

(** Whether and how a call fails does not depend on the receiver. *)
Lemma UnmarshalJSON_view (input : bytes) :
  (forall wl, UnmarshalJSON wl input = Panic)
  \/ (exists msg, forall wl, UnmarshalJSON wl input = Ret (wl, Some msg))
  \/ (exists nets, forall wl, UnmarshalJSON wl input = populate wl nets).
Proof.
  unfold UnmarshalJSON.
  destruct (index_at input 0) as [first|]; [|left; reflexivity].
  destruct (index_at input (len input - 1)) as [final|]; [|left; reflexivity].
  cbn [bind].
  destruct (negb (Ascii.eqb first "[" && Ascii.eqb final "]")
            && (negb (Ascii.eqb first dquote) || negb (Ascii.eqb final dquote))).
  { right. left. eexists. reflexivity. }
  destruct (negb (Ascii.eqb first "[" && Ascii.eqb final "]")).
  - destruct (slice input 1 (len input - 1)) as [inner|]; [|left; reflexivity].
    right. right. eexists. reflexivity.
  - destruct (json_Unmarshal input) as [e|nets].
    + right. left. eexists. reflexivity.
    + right. right. eexists. reflexivity.
Qed.

Lemma blanks_cons (s : bytes) (rest : list bytes) :
  blanks (s :: rest) = if isBlank s then S (blanks rest) else blanks rest.
Proof. unfold blanks. cbn [filter]. destruct (isBlank s); reflexivity. Qed.

Lemma parseAll_cons_blank (s : bytes) (rest : list bytes) :
  isBlank s = true ->
  parseAll (s :: rest) =
  match parseAll rest with
  | inl es => inl (None :: es)
  | inr a => inr a
  end.
Proof. unfold isBlank. intros Hs. cbn [parseAll]. now rewrite Hs. Qed.

Lemma parseAll_cons_parsed (s : bytes) (n : IPNet) (rest : list bytes) :
  parsesTo s n ->
  isBlank s = false
  /\ parseAll (s :: rest) =
     match parseAll rest with
     | inl es => inl (Some n :: es)
     | inr a => inr a
     end.
Proof.
  intros [Hne Hp]. apply bytes_eqb_neq in Hne. unfold isBlank.
  cbn [parseAll]. now rewrite Hne, Hp.
Qed.

Lemma parseAll_blank_tail (blank : list bytes) :
  Forall (fun s => isBlank s = true) blank ->
  parseAll blank = inl (repeat None (length blank))
  /\ blanks blank = length blank.
Proof.
  induction 1 as [|s rest Hs _ [IH1 IH2]]; [split; reflexivity|].
  rewrite blanks_cons, (@parseAll_cons_blank s rest Hs), Hs, IH1, IH2.
  split; reflexivity.
Qed.

Lemma parseAll_good_then_blank (good blank : list bytes) (ns : list IPNet) :
  Forall2 parsesTo good ns ->
  Forall (fun s => isBlank s = true) blank ->
  parseAll (good ++ blank) = inl (map Some ns ++ repeat None (length blank))
  /\ blanks (good ++ blank) = length blank.
Proof.
  intros Hg Hb. induction Hg as [|s n good ns Hs _ [IH1 IH2]].
  - apply parseAll_blank_tail, Hb.
  - destruct (@parseAll_cons_parsed s n (good ++ blank) Hs) as [Hnb Hp].
    cbn [app map]. rewrite blanks_cons, Hp, Hnb, IH1, IH2.
    split; reflexivity.
Qed.

(** X9: when UnmarshalJSON succeeds, the whitelist has as many entries as
    there are tokens that are not empty once trimmed, and the receiver keeps
    its format. *)
Theorem X9_entry_count (wl wl' : BasicNet) (input : bytes) (nets : list bytes) :
  tokensOf input nets ->
  UnmarshalJSON wl input = Ret (wl', None) ->
  length (whitelist wl') = length nets - blanks nets
  /\ jsonFormat wl' = jsonFormat wl.
Proof.
  intros Ht. rewrite (@UnmarshalJSON_tokens wl input nets Ht), populate_parseAll.
  destruct (parseAll nets) as [es|a] eqn:E; [|discriminate].
  intros [= <-]. cbn [set_whitelist whitelist jsonFormat].
  split; [|reflexivity]. rewrite length_firstn, (parseAll_length _ E). lia.
Qed.

(** X10: when every token that is empty once trimmed comes after all the
    others, and the others parse, UnmarshalJSON succeeds and the whitelist is
    exactly the parsed networks, in the order of their tokens. *)
Theorem X10_trailing_blanks (wl : BasicNet) (input : bytes)
    (good blank : list bytes) (ns : list IPNet) :
  tokensOf input (good ++ blank) ->
  Forall2 parsesTo good ns ->
  Forall (fun s => isBlank s = true) blank ->
  UnmarshalJSON wl input = Ret (set_whitelist wl (map Some ns), None).
Proof.
  intros Ht Hg Hb. rewrite (@UnmarshalJSON_tokens wl input _ Ht), populate_parseAll.
  destruct (@parseAll_good_then_blank good blank ns Hg Hb) as [-> ->].
  rewrite length_app. replace (length good + length blank - length blank)
    with (length (map Some ns))
    by (rewrite length_map, <- (Forall2_length Hg); lia).
  rewrite firstn_app, firstn_all, Nat.sub_diag. cbn [firstn].
  now rewrite app_nil_r.
Qed.

Lemma parseAll_first_rejected (good rest : list bytes) (bad : bytes) :
  Forall acceptable good -> rejected bad ->
  parseAll (good ++ bad :: rest) = inr (TrimSpace bad).
Proof.
  intros Hg [Hne Hp]. induction Hg as [|s good Hs _ IH].
  - cbn [app parseAll]. apply bytes_eqb_neq in Hne. now rewrite Hne, Hp.
  - cbn [app parseAll]. rewrite IH.
    destruct (bytes_eqb (TrimSpace s) []) eqn:E; [reflexivity|].
    apply bytes_eqb_neq in E. destruct Hs as [Hs|Hs]; [contradiction|].
    destruct (net_ParseCIDR (TrimSpace s)); [reflexivity|contradiction].
Qed.

(** X11: the error of a failed token names the first token, in order, that
    is not empty once trimmed and fails CIDR parsing (trimmed), whatever
    follows it; and the whitelist is cleared. *)
Theorem X11_first_bad_token (wl : BasicNet) (input : bytes)
    (good rest : list bytes) (bad : bytes) :
  tokensOf input (good ++ bad :: rest) ->
  Forall acceptable good -> rejected bad ->
  UnmarshalJSON wl input
  = Ret (set_whitelist wl [], Some (errToken (TrimSpace bad))).
Proof.
  intros Ht Hg Hb. rewrite (@UnmarshalJSON_tokens wl input _ Ht), populate_parseAll.
  rewrite (@parseAll_first_rejected good rest bad Hg Hb). reflexivity.
Qed.

(** X12: decoding looks at the input only: on another receiver the same
    input gives the same error or success, and on success the same entries,
    whatever the receiver's format and former entries; the receiver keeps its
    own format. *)
Theorem X12_receiver_independent (wl1 wl1' wl2 : BasicNet) (input : bytes)
    (e : error) :
  UnmarshalJSON wl1 input = Ret (wl1', e) ->
  jsonFormat wl1' = jsonFormat wl1
  /\ exists wl2', UnmarshalJSON wl2 input = Ret (wl2', e)
                  /\ (e = None -> whitelist wl2' = whitelist wl1').
Proof.
  destruct (UnmarshalJSON_view input) as [Hv|[[msg Hv]|[nets Hv]]];
    rewrite !Hv.
  - discriminate.
  - intros [= <- <-]. split; [reflexivity|]. eexists. split; [reflexivity|].
    discriminate.
  - rewrite !populate_parseAll. destruct (parseAll nets).
    + intros [= <- <-]. split; [reflexivity|]. eexists. split; reflexivity.
    + intros [= <- <-]. split; [reflexivity|]. eexists. split; reflexivity.
Qed.

Lemma parseAll_trimmed (nets1 nets2 : list bytes) :
  map TrimSpace nets1 = map TrimSpace nets2 ->
  parseAll nets1 = parseAll nets2
  /\ blanks nets1 = blanks nets2 /\ length nets1 = length nets2.
Proof.
  revert nets2. induction nets1 as [|s1 r1 IH]; intros [|s2 r2] Hm;
    try discriminate; [auto|].
  cbn [map] in Hm. injection Hm as Hs Hr.
  destruct (IH _ Hr) as (H1 & H2 & H3).
  unfold blanks, isBlank in *. cbn [parseAll filter length].
  rewrite Hs, H1. destruct (bytes_eqb (TrimSpace s2) []); cbn [length]; auto.
Qed.

(** X13: white space around a token does not matter: two inputs whose
    tokens are the same once trimmed are decoded alike. *)
Theorem X13_token_spaces (wl : BasicNet) (input1 input2 : bytes)
    (nets1 nets2 : list bytes) :
  tokensOf input1 nets1 -> tokensOf input2 nets2 ->
  map TrimSpace nets1 = map TrimSpace nets2 ->
  UnmarshalJSON wl input1 = UnmarshalJSON wl input2.
Proof.
  intros H1 H2 Hm.
  rewrite (@UnmarshalJSON_tokens wl _ _ H1), (@UnmarshalJSON_tokens wl _ _ H2).
  rewrite !populate_parseAll.
  destruct (@parseAll_trimmed nets1 nets2 Hm) as (-> & -> & ->). reflexivity.
Qed.

Lemma MarshalJSON_shape (wl : BasicNet) (out : bytes) :
  MarshalJSON wl = (out, None) ->
  exists nets, tokensOf out nets
               \/ (exists mid e, out = "["%char :: mid ++ ["]"%char]
                                 /\ json_Unmarshal out = inl e).
Proof.
  unfold MarshalJSON.
  destruct (jsonFormat wl =? JsonFormatCompatibility)%Z.
  - intros [= <-]. eexists. left. left. eexists. split; reflexivity.
  - destruct (jsonFormat wl =? JsonFormatNew)%Z; [|discriminate].
    assert (Hs : forall ss, exists mid,
               (if (0 <? len ss)%Z
                then bs "[" ++ [dquote]
                       ++ Join ss ([dquote] ++ bs "," ++ [dquote])
                       ++ [dquote] ++ bs "]"
                else bs "[]") = "["%char :: mid ++ ["]"%char]).
    { intros ss. destruct (0 <? len ss)%Z.
      - exists (dquote :: Join ss ([dquote] ++ bs "," ++ [dquote]) ++ [dquote]).
        cbn [bs list_ascii_of_string app]. now rewrite <- app_assoc.
      - exists []. reflexivity. }
    destruct (Hs (map entry_String (whitelist wl))) as [mid Hmid].
    intros Hout.
    assert (Ho : out = "["%char :: mid ++ ["]"%char]).
    { rewrite <- Hmid.
      destruct (0 <? len (map entry_String (whitelist wl)))%Z;
        now injection Hout as <-. }
    subst out.
    destruct (json_Unmarshal ("["%char :: mid ++ ["]"%char])) as [e|nets] eqn:J;
      clear Hout Hmid.
    + exists []. right. exists mid, e. split; reflexivity.
    + exists nets. left. right. exists mid. split; [reflexivity|exact J].
Qed.

(** X14: UnmarshalJSON returns, with or without an error, on every output
    of a successful MarshalJSON, whatever the entries of the whitelist that
    was serialised (nil entries included). *)
Theorem X14_Marshal_output_decodes (wl target : BasicNet) (out : bytes) :
  MarshalJSON wl = (out, None) ->
  exists wl' e, UnmarshalJSON target out = Ret (wl', e).
Proof.
  intros Hm. destruct (@MarshalJSON_shape wl out Hm) as [nets [Ht|(mid & e & -> & J)]].
  - rewrite (@UnmarshalJSON_tokens target _ _ Ht), populate_parseAll.
    destruct (parseAll nets); eauto.
  - rewrite UnmarshalJSON_brackets. cbv zeta. rewrite J. eauto.
Qed.

End UnmarshalMore.

(** ** More on the two launch policies *)

Section DualMore.

Context {H N : Type} {aclH : ACL H} {aclN : ACL N}.

Variables (wl : BasicDual H N) (ip : IP).

Lemma run_app (s1 s2 : list task) (c : config) :
  run wl ip (s1 ++ s2) c = run wl ip s2 (run wl ip s1 c).
Proof.
  revert c. induction s1 as [|t s1 IH]; intros c; [reflexivity|].
  cbn [app run]. destruct (step wl ip t c); apply IH.
Qed.

Lemma step_returned (t : task) (c c' : config) (b : bool) :
  caller c = Returned b -> step wl ip t c = Some c' -> caller c' = Returned b.
Proof.
  intros Hc. unfold step, send. destruct (crashed c); [discriminate|].
  destruct t.
  - destruct (pendingA c); [|discriminate].
    destruct (acl_Permitted (Addresses wl) ip).
    + destruct (length (res c) <? 2); [|discriminate].
      intros [= <-]. exact Hc.
    + intros [= <-]. exact Hc.
  - destruct (pendingN c); [|discriminate].
    destruct (acl_Permitted (Networks wl) ip).
    + destruct (length (res c) <? 2); [|discriminate].
      intros [= <-]. exact Hc.
    + intros [= <-]. exact Hc.
  - rewrite Hc. discriminate.
Qed.

(** Once the call has returned, nothing the goroutines do changes what it
    returned. *)
Lemma run_returned (sched : list task) (c : config) (b : bool) :
  caller c = Returned b -> caller (run wl ip sched c) = Returned b.
Proof.
  revert c. induction sched as [|t sched IH]; intros c Hc; [exact Hc|].
  cbn [run]. destruct (step wl ip t c) as [c'|] eqn:E.
  - apply IH. eapply step_returned; eauto.
  - apply IH, Hc.
Qed.

Lemma step_crashed (t : task) (c : config) :
  crashed c = true -> step wl ip t c = None.
Proof. intros Hc. unfold step. now rewrite Hc. Qed.

Lemma run_crashed (sched : list task) (c : config) :
  crashed c = true -> run wl ip sched c = c.
Proof.
  intros Hc. induction sched as [|t sched IH]; [reflexivity|].
  cbn [run]. now rewrite (step_crashed t c Hc).
Qed.

Lemma step_bufferOK (t : task) (c c' : config) :
  bufferOK c -> step wl ip t c = Some c' -> bufferOK c'.
Proof.
  unfold bufferOK, step, send. destruct c as [pa pn r cs cr].
  cbn [res pendingA pendingN caller crashed]. intros Hb.
  destruct cr; [discriminate|]. destruct t.
  - destruct pa; [|discriminate].
    destruct (acl_Permitted (Addresses wl) ip).
    + destruct (length r <? 2); [|discriminate].
      intros [= <-]. cbn [res pendingA pendingN]. rewrite length_app.
      cbn [length]. destruct pn; lia.
    + intros [= <-]. exact Hb.
  - destruct pn; [|discriminate].
    destruct (acl_Permitted (Networks wl) ip).
    + destruct (length r <? 2); [|discriminate].
      intros [= <-]. cbn [res pendingA pendingN]. rewrite length_app.
      cbn [length]. destruct pa; lia.
    + intros [= <-]. exact Hb.
  - destruct cs; destruct r as [|v rest];
      try discriminate; intros [= <-]; cbn [res pendingA pendingN length] in *;
      lia.
Qed.

Lemma run_bufferOK (sched : list task) (c : config) :
  bufferOK c -> bufferOK (run wl ip sched c).
Proof.
  revert c. induction sched as [|t sched IH]; intros c Hb; [exact Hb|].
  cbn [run]. destruct (step wl ip t c) as [c'|] eqn:E.
  - apply IH. eapply step_bufferOK; eauto.
  - apply IH, Hb.
Qed.

End DualMore.

(** X15: when the address check returns true and the network check panics,
    the sequenced policy returns true, never running the network check,
    while under the asynchronous policy every schedule that lets the second
    goroutine move first crashes the process before the call returns. *)
Theorem X15_panicking_network_check (H N : Type) (aclH : ACL H) (aclN : ACL N)
    (addresses : H) (networks : N) (ip : IP) (sched : list task) :
  acl_Permitted addresses ip = Ret true ->
  acl_Permitted networks ip = Panic ->
  BasicDual_Permitted (NewDual addresses networks LaunchPolicySequenced) ip
    sched = Returns true
  /\ BasicDual_Permitted (NewDual addresses networks LaunchPolicyAsync) ip
       (GoNetworks :: sched) = Crashes.
Proof.
  intros Ha Hn. split.
  - unfold BasicDual_Permitted, Permitted_sequenced. cbn. now rewrite Ha.
  - unfold BasicDual_Permitted. cbn [NewDual launchPolicy].
    change (LaunchPolicyAsync =? LaunchPolicySequenced)%Z with false.
    cbv iota. cbn [run step init crashed pendingN send Networks NewDual].
    unfold send. rewrite Hn. rewrite run_crashed by reflexivity.
    reflexivity.
Qed.

(** X16: under the asynchronous policy the first value received decides
    when it is true: once a goroutine whose check returns true has sent and
    the caller has received, Permitted has returned true, whether or not the
    other check has run and whatever it does later. *)
Theorem X16_first_true_wins (H N : Type) (aclH : ACL H) (aclN : ACL N)
    (addresses : H) (networks : N) (ip : IP) (sched : list task) :
  let async := NewDual addresses networks LaunchPolicyAsync in
  (acl_Permitted addresses ip = Ret true ->
   BasicDual_Permitted async ip (GoAddresses :: Caller :: sched)
   = Returns true)
  /\ (acl_Permitted networks ip = Ret true ->
      BasicDual_Permitted async ip (GoNetworks :: Caller :: sched)
      = Returns true).
Proof.
  intros async. subst async. split; intros Hc.
  - unfold BasicDual_Permitted, verdict_of. cbn [NewDual launchPolicy].
    change (LaunchPolicyAsync =? LaunchPolicySequenced)%Z with false.
    cbv iota. cbn [run step init crashed pendingA send Addresses NewDual].
    unfold send. rewrite Hc. cbn.
    erewrite run_returned; reflexivity.
  - unfold BasicDual_Permitted, verdict_of. cbn [NewDual launchPolicy].
    change (LaunchPolicyAsync =? LaunchPolicySequenced)%Z with false.
    cbv iota. cbn [run step init crashed pendingN send Networks NewDual].
    unfold send. rewrite Hc. cbn.
    erewrite run_returned; reflexivity.
Qed.

(** X17: the channel of capacity 2 never fills up: under every schedule and
    whatever the two checks do, the buffer holds at most 2 values, and a
    goroutine that has not sent yet can always move, also after the caller
    has returned; no goroutine is left blocked on its send. *)
Theorem X17_sends_never_block (H N : Type) (aclH : ACL H) (aclN : ACL N)
    (wl : BasicDual H N) (ip : IP) (sched : list task) :
  let c := run wl ip sched init in
  length (res c) <= 2
  /\ (crashed c = false -> pendingA c = true ->
      step wl ip GoAddresses c <> None)
  /\ (crashed c = false -> pendingN c = true ->
      step wl ip GoNetworks c <> None).
Proof.
  intros c.
  assert (Hb : bufferOK c).
  { apply run_bufferOK. unfold bufferOK. cbn. lia. }
  unfold bufferOK in Hb. split; [lia|]. split.
  - intros Hc Hp. unfold step, send. rewrite Hc, Hp. rewrite Hp in Hb.
    destruct (acl_Permitted (Addresses wl) ip); [|discriminate].
    replace (length (res c) <? 2) with true; [discriminate|].
    symmetry. apply Nat.ltb_lt. destruct (pendingN c); lia.
  - intros Hc Hp. unfold step, send. rewrite Hc, Hp. rewrite Hp in Hb.
    destruct (acl_Permitted (Networks wl) ip); [|discriminate].
    replace (length (res c) <? 2) with true; [discriminate|].
    symmetry. apply Nat.ltb_lt. destruct (pendingA c); lia.
Qed.

Section DualNetworksMore.

Context {std : GoStd} {H : Type} {aclH : ACL H}.

Lemma async_finish {N : Type} {aclN : ACL N} (wl : BasicDual H N) (ip : IP)
    (a n : bool) (sched : list task) :
  acl_Permitted (Addresses wl) ip = Ret a ->
  acl_Permitted (Networks wl) ip = Ret n ->
  verdict_of (run wl ip (sched ++ finish) init) = Returns (a || n).
Proof.
  intros Ha Hn. unfold verdict_of.
  rewrite run_app, (@inv_finish _ _ _ _ wl ip a n Ha Hn); [reflexivity|].
  apply inv_run; [exact Ha|exact Hn|reflexivity].
Qed.

Lemma dual_finish {N : Type} {aclN : ACL N} (wl : BasicDual H N) (ip : IP)
    (a : bool) (sched : list task) :
  acl_Permitted (Addresses wl) ip = Ret a ->
  acl_Permitted (Networks wl) ip = Ret true ->
  BasicDual_Permitted wl ip (sched ++ finish) = Returns true.
Proof.
  intros Ha Hn. unfold BasicDual_Permitted, Permitted_sequenced.
  destruct (launchPolicy wl =? LaunchPolicySequenced)%Z.
  - rewrite Ha. cbn [bind]. destruct a; [reflexivity|]. now rewrite Hn.
  - rewrite (async_finish wl ip sched Ha Hn). now rewrite orb_true_r.
Qed.

Lemma Permitted_Add_contains (nw : BasicNet) (n : IPNet) (ip : IP) :
  validIP ip = true -> Forall nonNil (whitelist nw) ->
  IPNet_Contains n ip = true ->
  Permitted (Add nw (Some n)) ip = Ret true.
Proof.
  intros Hv Hnn Hc. unfold Permitted. rewrite Hv.
  cbn [negb Add set_whitelist whitelist]. rewrite scan_app_nonNil by exact Hnn.
  destruct (existsb (contains_ip ip) (whitelist nw)); [reflexivity|].
  cbn [scan entry_Contains bind]. now rewrite Hc.
Qed.

(** X18: after AddNetwork(n) on a dual whose network whitelist has no nil
    entry, Permitted returns true for every valid address of [n], under
    either launch policy and every schedule that gives each task its turns,
    provided the address check returns. *)
Theorem X18_AddNetwork_permits (wl : BasicDual H BasicNet) (n : IPNet)
    (ip : IP) (a : bool) (sched : list task) :
  validIP ip = true -> IPNet_Contains n ip = true ->
  Forall nonNil (whitelist (Networks wl)) ->
  acl_Permitted (Addresses wl) ip = Ret a ->
  BasicDual_Permitted (AddNetwork wl (Some n)) ip (sched ++ finish)
  = Returns true.
Proof.
  intros Hv Hc Hnn Ha. eapply dual_finish.
  - exact Ha.
  - cbn [AddNetwork Networks acl_Add BasicNet_NetOps acl_Permitted BasicNet_ACL].
    apply Permitted_Add_contains; assumption.
Qed.

(** X19: a dual whose network side is the stub permits every address, valid
    or not, for which the address check returns, under either launch policy;
    and the dual that NewStubDual builds permits every address. *)
Theorem X19_stub_permits_all (addresses : H) (policy : Z) (ip : IP) (a : bool)
    (sched : list task) :
  (acl_Permitted addresses ip = Ret a ->
   BasicDual_Permitted (NewDual addresses mkNetStub policy) ip
     (sched ++ finish) = Returns true)
  /\ BasicDual_Permitted NewStubDual ip sched = Returns true.
Proof.
  split; [|reflexivity].
  intros Ha. eapply dual_finish; [exact Ha|reflexivity].
Qed.


End DualNetworksMore.

(** ** Further runs: the compositions at concrete inputs *)

Module RunsMore.

Import IPv4 IPv4Laws Examples.

Lemma nonNil_acl3 : Forall nonNil (whitelist acl3).
Proof. repeat constructor; discriminate. Qed.

Lemma X1_witness :
  validIP [192; 168; 7; 255]%N = true
  /\ Forall nonNil (whitelist acl3)
  /\ exists b, Permitted acl3 [192; 168; 7; 255]%N = Ret b
               /\ Permitted (Add acl3 (Some net7)) [192; 168; 7; 255]%N
                  = Ret (b || IPNet_Contains net7 [192; 168; 7; 255]%N).
Proof.
  split; [reflexivity|]. split; [exact nonNil_acl3|].
  apply (X1_Add_then_Permitted acl3 net7 [192; 168; 7; 255]%N);
    [reflexivity|exact nonNil_acl3].
Defined.

Lemma X2_witness :
  Permitted acl3 ip31 = Ret true
  /\ Permitted (Add acl3 (Some net7)) ip31 = Ret true.
Proof.
  split; [reflexivity|].
  apply (X2_Add_keeps_permitted acl3 (Some net7) ip31). reflexivity.
Defined.

Lemma X4_witness :
  Forall (fun e => entry_String e <> IPNet_String net7) (whitelist acl3)
  /\ exists wl',
       Remove (Add acl3 (Some net7)) (Some net7) = Ret wl'
       /\ length (whitelist wl') = length (whitelist acl3)
       /\ (Forall (fun e => entry_String e <> IPNet_String net7)
             (whitelist acl3) -> wl' = acl3).
Proof.
  split; [repeat constructor; discriminate|].
  apply (X4_Add_then_Remove acl3 net7).
Defined.

Lemma X5_witness :
  Forall nonNil (whitelist acl37)
  /\ Forall nonNil (whitelist (Add acl37 (Some net10)))
  /\ forall wl', Remove acl37 (Some net10) = Ret wl' ->
                 Forall nonNil (whitelist wl').
Proof.
  assert (Hnn : Forall nonNil (whitelist acl37))
    by (repeat constructor; discriminate).
  split; [exact Hnn|]. apply (X5_nonNil_kept acl37 (Some net10) Hnn).
Defined.

Lemma X6_witness :
  Forall nonNil (whitelist acl37)
  /\ Remove acl37 (Some net7) = Ret acl3
  /\ Permitted acl3 ip31 = Ret true
  /\ Permitted acl37 ip31 = Ret true.
Proof.
  assert (Hnn : Forall nonNil (whitelist acl37))
    by (repeat constructor; discriminate).
  split; [exact Hnn|]. split; [reflexivity|]. split; [reflexivity|].
  apply (X6_Remove_grants_nothing acl37 (wl' := acl3) (Some net7) ip31 Hnn);
    reflexivity.
Defined.

Lemma X7_witness :
  Forall nonNil (whitelist NewBasicNet)
  /\ validIP ip31 = true
  /\ IPNet_Contains net3 ip31 = true
  /\ exists wl',
       Remove (Add (Add NewBasicNet (Some net3)) (Some net3)) (Some net3)
       = Ret wl'
       /\ length (whitelist wl') = S (length (whitelist NewBasicNet))
       /\ Permitted wl' ip31 = Ret true.
Proof.
  split; [constructor|]. split; [reflexivity|]. split; [reflexivity|].
  apply (X7_duplicates (std := IPv4.std) NewBasicNet net3 ip31);
    [constructor| |]; reflexivity.
Defined.

Lemma X8_witness :
  (jsonFormat acl3 = JsonFormatCompatibility
   \/ jsonFormat acl3 = JsonFormatNew)
  /\ jsonFormat aclFormat7 <> JsonFormatCompatibility
  /\ jsonFormat aclFormat7 <> JsonFormatNew
  /\ (exists out, MarshalJSON acl3 = (out, None) /\ 2 <= length out)
  /\ MarshalJSON aclFormat7
     = ([], Some (bs "whitelist.Basic: unsupported JSON format")).
Proof.
  split; [left; reflexivity|]. split; [discriminate|]. split; [discriminate|].
  split.
  - apply (proj1 (X8_MarshalJSON_formats acl3)). left. reflexivity.
  - apply (proj2 (X8_MarshalJSON_formats aclFormat7)); discriminate.
Defined.

(** The input of the following runs: two networks and a trailing comma. *)
Lemma tokens_trailing :
  tokensOf (quoted "192.168.3.0/24,192.168.7.0/24,")
    ([bs "192.168.3.0/24"; bs "192.168.7.0/24"] ++ [[]]).
Proof.
  left. exists (bs "192.168.3.0/24,192.168.7.0/24,"). split; reflexivity.
Qed.

Lemma X9_witness :
  tokensOf (quoted "192.168.3.0/24,192.168.7.0/24,")
    [bs "192.168.3.0/24"; bs "192.168.7.0/24"; []]
  /\ UnmarshalJSON NewBasicNet (quoted "192.168.3.0/24,192.168.7.0/24,")
     = Ret (acl37, None)
  /\ length (whitelist acl37)
     = length [bs "192.168.3.0/24"; bs "192.168.7.0/24"; []]
       - blanks [bs "192.168.3.0/24"; bs "192.168.7.0/24"; []]
  /\ jsonFormat acl37 = jsonFormat NewBasicNet.
Proof.
  split; [exact tokens_trailing|]. split; [reflexivity|].
  apply (X9_entry_count (std := IPv4.std) NewBasicNet (wl' := acl37)
           tokens_trailing).
  reflexivity.
Defined.

Lemma X10_witness :
  tokensOf (quoted "192.168.3.0/24,192.168.7.0/24,")
    ([bs "192.168.3.0/24"; bs "192.168.7.0/24"] ++ [[]])
  /\ Forall2 parsesTo [bs "192.168.3.0/24"; bs "192.168.7.0/24"] [net3; net7]
  /\ Forall (fun s => isBlank s = true) [[]]
  /\ UnmarshalJSON NewBasicNet (quoted "192.168.3.0/24,192.168.7.0/24,")
     = Ret (set_whitelist NewBasicNet (map Some [net3; net7]), None).
Proof.
  assert (Hg : Forall2 parsesTo [bs "192.168.3.0/24"; bs "192.168.7.0/24"]
                 [net3; net7]).
  { repeat constructor; try discriminate; reflexivity. }
  assert (Hb : Forall (fun s => isBlank s = true) [[]])
    by (repeat constructor).
  split; [exact tokens_trailing|]. split; [exact Hg|]. split; [exact Hb|].
  apply (X10_trailing_blanks (std := IPv4.std) NewBasicNet tokens_trailing
           Hg Hb).
Defined.

Lemma X11_witness :
  tokensOf (quoted "192.168.3.0/24,127.0.0.256,x")
    ([bs "192.168.3.0/24"] ++ bs "127.0.0.256" :: [bs "x"])
  /\ Forall acceptable [bs "192.168.3.0/24"]
  /\ rejected (bs "127.0.0.256")
  /\ UnmarshalJSON acl3 (quoted "192.168.3.0/24,127.0.0.256,x")
     = Ret (set_whitelist acl3 [],
            Some (errToken (TrimSpace (bs "127.0.0.256")))).
Proof.
  assert (Ht : tokensOf (quoted "192.168.3.0/24,127.0.0.256,x")
                 ([bs "192.168.3.0/24"] ++ bs "127.0.0.256" :: [bs "x"])).
  { left. exists (bs "192.168.3.0/24,127.0.0.256,x"). split; reflexivity. }
  assert (Hg : Forall acceptable [bs "192.168.3.0/24"]).
  { apply Forall_cons; [right; discriminate|constructor]. }
  assert (Hb : rejected (bs "127.0.0.256")).
  { split; [discriminate|reflexivity]. }
  split; [exact Ht|]. split; [exact Hg|]. split; [exact Hb|].
  apply (X11_first_bad_token acl3 [bs "x"] Ht Hg Hb).
Defined.

Lemma X12_witness :
  UnmarshalJSON NewBasicNet (quoted "192.168.3.0/24") = Ret (acl3, None)
  /\ jsonFormat acl3 = jsonFormat NewBasicNet
  /\ exists wl2',
       UnmarshalJSON aclNew10 (quoted "192.168.3.0/24") = Ret (wl2', None)
       /\ (@None bytes = None -> whitelist wl2' = whitelist acl3).
Proof.
  split; [reflexivity|].
  apply (X12_receiver_independent (std := IPv4.std) NewBasicNet (wl1' := acl3)
           aclNew10 (quoted "192.168.3.0/24") (e := None)).
  reflexivity.
Defined.

Lemma X13_witness :
  let input1 := quoted " 10.0.0.0/8 ,192.168.3.0/24" in
  let input2 := bs "[" ++ quoted "10.0.0.0/8" ++ bs "," 
                  ++ quoted " 192.168.3.0/24" ++ bs "]" in
  tokensOf input1 [bs "10.0.0.0/8 "; bs "192.168.3.0/24"]
  /\ tokensOf input2 [bs "10.0.0.0/8"; bs " 192.168.3.0/24"]
  /\ map TrimSpace [bs "10.0.0.0/8 "; bs "192.168.3.0/24"]
     = map TrimSpace [bs "10.0.0.0/8"; bs " 192.168.3.0/24"]
  /\ UnmarshalJSON acl3 input1 = UnmarshalJSON acl3 input2.
Proof.
  intros input1 input2.
  assert (H1 : tokensOf input1 [bs "10.0.0.0/8 "; bs "192.168.3.0/24"]).
  { left. exists (bs " 10.0.0.0/8 ,192.168.3.0/24"). split; reflexivity. }
  assert (H2 : tokensOf input2 [bs "10.0.0.0/8"; bs " 192.168.3.0/24"]).
  { right. exists (quoted "10.0.0.0/8" ++ bs "," ++ quoted " 192.168.3.0/24").
    split; reflexivity. }
  split; [exact H1|]. split; [exact H2|]. split; [reflexivity|].
  apply (X13_token_spaces acl3 H1 H2). reflexivity.
Defined.

Lemma X14_witness :
  MarshalJSON aclNil = (quoted "<nil>", None)
  /\ exists wl' e, UnmarshalJSON acl3 (quoted "<nil>") = Ret (wl', e).
Proof.
  split; [reflexivity|].
  apply (X14_Marshal_output_decodes aclNil acl3 (out := quoted "<nil>")).
  reflexivity.
Defined.

Lemma X15_witness :
  acl_Permitted mkHostStub ip31 = Ret true
  /\ acl_Permitted aclNil ip31 = Panic
  /\ BasicDual_Permitted (NewDual mkHostStub aclNil LaunchPolicySequenced)
       ip31 [Caller] = Returns true
  /\ BasicDual_Permitted (NewDual mkHostStub aclNil LaunchPolicyAsync)
       ip31 (GoNetworks :: [Caller]) = Crashes.
Proof.
  split; [reflexivity|]. split; [reflexivity|].
  apply (X15_panicking_network_check HostStub_ACL BasicNet_ACL mkHostStub
           aclNil ip31 [Caller]); reflexivity.
Defined.

Lemma X16_witness :
  acl_Permitted mkHostStub ip31 = Ret true
  /\ acl_Permitted acl3 ip31 = Ret true
  /\ BasicDual_Permitted (NewDual mkHostStub acl3 LaunchPolicyAsync) ip31
       (GoAddresses :: Caller :: [GoNetworks]) = Returns true
  /\ BasicDual_Permitted (NewDual mkHostStub acl3 LaunchPolicyAsync) ip31
       (GoNetworks :: Caller :: [GoNetworks]) = Returns true.
Proof.
  split; [reflexivity|]. split; [reflexivity|].
  pose proof (X16_first_true_wins HostStub_ACL BasicNet_ACL mkHostStub acl3
                ip31 [GoNetworks]) as [H1 H2].
  split; [apply H1|apply H2]; reflexivity.
Defined.

Lemma X17_witness :
  let c := run dual3 ip31 [GoAddresses; Caller] init in
  crashed c = false /\ pendingN c = true
  /\ length (res c) <= 2
  /\ step dual3 ip31 GoNetworks c <> None.
Proof.
  intros c. split; [reflexivity|]. split; [reflexivity|].
  pose proof (X17_sends_never_block HostStub_ACL BasicNet_ACL dual3 ip31
                [GoAddresses; Caller])
    as (H1 & _ & H3).
  split; [exact H1|]. apply H3; reflexivity.
Defined.

Lemma X18_witness :
  validIP ip31 = true
  /\ IPNet_Contains net3 ip31 = true
  /\ Forall nonNil (whitelist (Networks dualNew))
  /\ acl_Permitted (Addresses dualNew) ip31 = Ret true
  /\ @BasicDual_Permitted HostStub BasicNet _ _
       (AddNetwork dualNew (Some net3)) ip31 ([Caller] ++ finish)
     = Returns true.
Proof.
  split; [reflexivity|]. split; [reflexivity|]. split; [constructor|].
  split; [reflexivity|].
  apply (X18_AddNetwork_permits dualNew net3 ip31 (a := true) [Caller]);
    [reflexivity|reflexivity|constructor|reflexivity].
Defined.

Lemma X19_witness :
  acl_Permitted mkHostStub [0; 0]%N = Ret true
  /\ BasicDual_Permitted (NewDual mkHostStub mkNetStub LaunchPolicyAsync)
       [0; 0]%N ([GoNetworks] ++ finish) = Returns true.
Proof.
  split; [reflexivity|].
  apply (proj1 (X19_stub_permits_all mkHostStub LaunchPolicyAsync [0; 0]%N
                  true [GoNetworks])).
  reflexivity.
Defined.


End RunsMore.
